(** * crm/schema.py: the GraphQL mutation layer of the CRM

    A shallow embedding of the four mutations of [crm/schema.py]
    ([CreateCustomer], [BulkCreateCustomers], [CreateProduct], [CreateOrder])
    and of the phone pattern they share, followed by the properties the
    specification states about them.

    Python values are modelled as follows.
    - [str] is [string]; the characters are the code points below 256, on
      which the class [\d] of a Python 3 [str] pattern is exactly [0-9].
    - [None]-able arguments are [option].
    - An id of a request is the [str] a [graphene.ID] carries; the key it
      denotes is what [int()] reads from it.
    - An exception is the [Raises] outcome of a call; a call that completes
      is [Returns].
    - The database behind the Django ORM is a [Store] passed in and out. *)

From Stdlib Require Import String Ascii List Bool Arith ZArith QArith Qround Lia.
From Stdlib Require Import DecimalString.
Import ListNotations.

Close Scope Q_scope.
Open Scope string_scope.
Open Scope list_scope.
Open Scope nat_scope.

(** String concatenation, kept apart from the [++] of lists. *)
Infix "+++" := String.append (right associativity, at level 60).

(** ** Regular expressions, as [re] matches them *)

Module Re.

(** The constructs the phone pattern is written with. *)
Inductive regex : Type :=
| Chr (c : ascii)                 (* a literal character: [\+], [-] *)
| Digit                           (* [\d] *)
| Bol                             (* [^] *)
| Eol                             (* [$] *)
| Seq (r1 r2 : regex)             (* r1 r2 *)
| Alt (r1 r2 : regex)             (* r1|r2 *)
| Rep (r : regex) (lo hi : nat).  (* r{lo,hi}, greedy *)

(** [\d] on the code points below 256: the digits 0 to 9.  In a [str]
    pattern [\d] also matches the decimal digits of other scripts; all of
    them lie above 255 and are outside this model. *)
Definition is_digit (c : ascii) : bool :=
  let n := nat_of_ascii c in (48 <=? n) && (n <=? 57).

Definition LF : ascii := "010"%char.

(** [$] without [re.MULTILINE]: the end of the string, or just before the
    newline that ends the string. *)
Definition at_end (s : string) : bool :=
  match s with
  | EmptyString => true
  | String c EmptyString => Ascii.eqb c LF
  | _ => false
  end.

(** A backtracking matcher: the position, the rest of the subject and what
    is left to match after this piece. *)
Definition matcher : Type := nat -> string -> (nat -> string -> bool) -> bool.

Fixpoint times (m : matcher) (n : nat) : matcher :=
  fun pos s k =>
    match n with
    | O => k pos s
    | S n' => m pos s (fun pos' s' => times m n' pos' s' k)
    end.

(** Greedy: one more repetition is tried before stopping. *)
Fixpoint upto (m : matcher) (n : nat) : matcher :=
  fun pos s k =>
    match n with
    | O => k pos s
    | S n' => m pos s (fun pos' s' => upto m n' pos' s' k) || k pos s
    end.

Fixpoint run (r : regex) : matcher :=
  fun pos s k =>
    match r with
    | Chr c =>
        match s with
        | String x s' => Ascii.eqb x c && k (S pos) s'
        | EmptyString => false
        end
    | Digit =>
        match s with
        | String x s' => is_digit x && k (S pos) s'
        | EmptyString => false
        end
    | Bol => (pos =? 0) && k pos s
    | Eol => at_end s && k pos s
    | Seq r1 r2 => run r1 pos s (fun pos' s' => run r2 pos' s' k)
    | Alt r1 r2 => run r1 pos s k || run r2 pos s k
    | Rep r' lo hi =>
        times (run r') lo pos s (fun pos' s' => upto (run r') (hi - lo) pos' s' k)
    end.

(** [pattern.match(s)]: a match that starts at position 0; how far it
    reaches is up to the pattern. *)
Definition re_match (r : regex) (s : string) : bool :=
  run r 0 s (fun _ _ => true).

End Re.

Import Re.

(** [re.compile(r"^(\+\d{10,15}|\d{3}-\d{3}-\d{4})$")] *)
Definition phone_regex : regex :=
  Seq Bol
    (Seq (Alt (Seq (Chr "+"%char) (Rep Digit 10 15))
              (Seq (Rep Digit 3 3)
                 (Seq (Chr "-"%char)
                    (Seq (Rep Digit 3 3)
                       (Seq (Chr "-"%char) (Rep Digit 4 4))))))
         Eol).

(** ** The data model *)

(** Modelled from the spec: crm/models.py, which declares the three entities,
    is not among the sources.  Section 3 of the specification gives their
    fields: a customer has an identity, a name, a unique email and an
    optional phone.  The identity is the integer key the database gives the
    row. *)
Module Customer.
Record t : Type := { pk : Z; name : string; email : string; phone : option string }.
End Customer.

(** Modelled from the spec: crm/models.py is not among the sources.  A
    product has an identity, a name, a decimal price and an integer stock.
    A decimal is an exact number, hence [Q]; the finite values of the
    [Float] argument of [CreateProduct] are rationals too.  What the decimal
    column keeps of a price is the store's ([price_column] below). *)
Module Product.
Record t : Type := { pk : Z; name : string; price : Q; stock : Z }.
End Product.

(** Modelled from the spec: crm/models.py is not among the sources.  An order
    refers to one customer and, through a many-to-many relation, to
    products; it stores its date and its total.  References are primary
    keys, the relation holds a key once, a date is a number of seconds. *)
Module Order.
Record t : Type :=
  { pk : Z; customer : Z; products : list Z;
    order_date : Z; total_amount : Q }.
End Order.

(** The tables, in insertion order. *)
Record Store : Type :=
  { customer_table : list Customer.t; product_table : list Product.t;
    order_table : list Order.t }.

Definition empty_store : Store :=
  {| customer_table := []; product_table := []; order_table := [] |}.

(** [str(n)] for a non-negative [int]. *)
Definition string_of_nat (n : nat) : string := NilEmpty.string_of_uint (Nat.to_uint n).

(** The key an auto-incremented table gives its next row: the one after
    the largest key in use, 1 for an empty table. *)
Definition next_key (keys : list Z) : Z := (1 + fold_right Z.max 0 keys)%Z.

(** *** Ids *)

(** The whitespace [int()] skips around a number, among the code points
    below 256. *)
Definition is_space (c : ascii) : bool :=
  let n := nat_of_ascii c in
  ((9 <=? n) && (n <=? 13)) || (n =? 32) || (n =? 133) || (n =? 160).

Fixpoint lstrip (s : string) : string :=
  match s with
  | String c s' => if is_space c then lstrip s' else s
  | EmptyString => EmptyString
  end.

Fixpoint all_space (s : string) : bool :=
  match s with
  | String c s' => is_space c && all_space s'
  | EmptyString => true
  end.

Definition digit_value (c : ascii) : Z := Z.of_nat (nat_of_ascii c - 48).

(** What follows a digit of a number: more digits, each possibly after one
    underscore, then whitespace only. *)
Fixpoint int_digits (s : string) (acc : Z) : option Z :=
  match s with
  | EmptyString => Some acc
  | String c s' =>
      if is_digit c then int_digits s' (10 * acc + digit_value c)%Z
      else if Ascii.eqb c "_" then
        match s' with
        | String d s'' =>
            if is_digit d then int_digits s'' (10 * acc + digit_value d)%Z else None
        | EmptyString => None
        end
      else if all_space s then Some acc
      else None
  end.

Definition int_unsigned (s : string) : option Z :=
  match s with
  | String c s' => if is_digit c then int_digits s' (digit_value c) else None
  | EmptyString => None
  end.

Fixpoint digit_count (s : string) : Z :=
  match s with
  | String c s' => ((if is_digit c then 1 else 0) + digit_count s')%Z
  | EmptyString => 0%Z
  end.

(** [int(s)] for a [str] of code points below 256; [None] stands for
    [ValueError], which a text of more than 4300 digits raises too.  The key
    an id denotes is read this way: Django converts the text a
    [graphene.ID] carries with [int()] before it looks the key up. *)
Definition python_int (s : string) : option Z :=
  if (4300 <? digit_count s)%Z then None
  else
    match lstrip s with
    | String c s' =>
        if Ascii.eqb c "-" then option_map Z.opp (int_unsigned s')
        else if Ascii.eqb c "+" then int_unsigned s'
        else int_unsigned (String c s')
    | EmptyString => None
    end.

Definition hex_digit (n : nat) : ascii :=
  nth n ["0"; "1"; "2"; "3"; "4"; "5"; "6"; "7"; "8"; "9"; "a"; "b"; "c"; "d"; "e"; "f"]%char
      "0"%char.

Definition backslash : ascii := "092"%char.
Definition double_quote : ascii := "034"%char.
Definition single_quote : ascii := "039"%char.

Definition repr_char (quote c : ascii) : string :=
  let n := nat_of_ascii c in
  if Ascii.eqb c quote || Ascii.eqb c backslash then String backslash (String c "")
  else if n =? 9 then String backslash "t"
  else if n =? 10 then String backslash "n"
  else if n =? 13 then String backslash "r"
  else if (n <? 32) || ((127 <=? n) && (n <=? 160)) || (n =? 173) then
    String backslash (String "x" (String (hex_digit (n / 16)) (String (hex_digit (n mod 16)) "")))
  else String c "".

Fixpoint contains (c : ascii) (s : string) : bool :=
  match s with
  | String x s' => Ascii.eqb x c || contains c s'
  | EmptyString => false
  end.

Fixpoint repr_chars (quote : ascii) (s : string) : string :=
  match s with
  | String c s' => repr_char quote c +++ repr_chars quote s'
  | EmptyString => EmptyString
  end.

(** [repr(s)] for a [str] of code points below 256. *)
Definition repr (s : string) : string :=
  let quote :=
    if contains single_quote s && negb (contains double_quote s)
    then double_quote else single_quote in
  String quote (repr_chars quote s +++ String quote "").

(** The message of the [ValueError] Django raises for an id that is not a
    number. *)
Definition not_a_number (pk : string) : string :=
  "Field 'id' expected a number but got " +++ repr pk +++ ".".

(** ** The store as the code reaches it *)

Inductive outcome (A : Type) : Type :=
| Returns (a : A)
| Raises (e : string).
Arguments Returns {A} a.
Arguments Raises {A} e.

(** What makes a [save()] raise.  A [DatabaseError] is raised while the
    INSERT runs; inside an [atomic] block Django then marks the transaction
    for rollback ([Model.save_base] runs the query under
    [mark_for_rollback_on_error]), and refuses every query until the block
    is left.  Any other exception leaves [save()] before a query is issued,
    as one raised by a [pre_save] receiver does, and marks nothing. *)
Inductive Fault : Type :=
| DatabaseError (msg : string)
| OtherError (msg : string).

(** [str(e)] *)
Definition str (f : Fault) : string :=
  match f with DatabaseError msg | OtherError msg => msg end.

(** The store is an external collaborator: whether it accepts a write is
    its decision, a function of its contents and of the row; so is what its
    decimal column keeps of the price it is given. *)
Class Backend : Type :=
  { customer_save_fault : Store -> Customer.t -> option Fault;
    product_save_fault : Store -> Product.t -> option Fault;
    order_save_fault : Store -> Order.t -> option Fault;
    price_column : Q -> Q }.

(** A column of two decimal places: the price in hundredths, rounded to the
    nearest, a half to the even one. *)
Definition cents (price : Q) : Q :=
  let scaled := (price * 100)%Q in
  let low := Qfloor scaled in
  let rest := (scaled - inject_Z low)%Q in
  let hundredths :=
    match Qcompare rest (1 # 2) with
    | Lt => low
    | Gt => (low + 1)%Z
    | Eq => if Z.even low then low else (low + 1)%Z
    end in
  (hundredths # 100).

(** A store that accepts every write. *)
Definition reliable : Backend :=
  {| customer_save_fault := fun _ _ => None;
     product_save_fault := fun _ _ => None;
     order_save_fault := fun _ _ => None;
     price_column := cents |}.

(** A database file another writer holds: SQLite refuses every write. *)
Definition locked : Backend :=
  {| customer_save_fault := fun _ _ => Some (DatabaseError "database is locked");
     product_save_fault := fun _ _ => Some (DatabaseError "database is locked");
     order_save_fault := fun _ _ => Some (DatabaseError "database is locked");
     price_column := cents |}.

(** A column of 100 characters for the name, enforced by the database:
    the INSERT of a longer name raises. *)
Definition strict_names : Backend :=
  {| customer_save_fault := fun _ c =>
       if 100 <? String.length (Customer.name c)
       then Some (DatabaseError "value too long for type character varying(100)")
       else None;
     product_save_fault := fun _ _ => None;
     order_save_fault := fun _ _ => None;
     price_column := cents |}.

(** A [pre_save] receiver that refuses a name: the exception leaves
    [save()] before any query. *)
Definition vetoing (name : string) : Backend :=
  {| customer_save_fault := fun _ c =>
       if (Customer.name c =? name)%string
       then Some (OtherError "name not allowed")
       else None;
     product_save_fault := fun _ _ => None;
     order_save_fault := fun _ _ => None;
     price_column := cents |}.

(** Django's connection: the data, and the state of the transaction. *)
Record Connection : Type :=
  { db : Store; in_atomic_block : bool; needs_rollback : bool }.

Definition autocommit (s : Store) : Connection :=
  {| db := s; in_atomic_block := false; needs_rollback := false |}.

Definition with_db (c : Connection) (s : Store) : Connection :=
  {| db := s; in_atomic_block := in_atomic_block c; needs_rollback := needs_rollback c |}.

Definition mark_for_rollback (c : Connection) : Connection :=
  {| db := db c; in_atomic_block := in_atomic_block c;
     needs_rollback := in_atomic_block c || needs_rollback c |}.

(** The message of the [TransactionManagementError] a query meets in a
    transaction marked for rollback. *)
Definition broken_transaction : string :=
  "An error occurred in the current transaction. You can't execute queries until the end of the 'atomic' block.".

(** Code that runs on a state and may raise; whatever it did to the state
    before raising stays done. *)
Definition ST (W A : Type) : Type := W -> W * outcome A.

Definition ret {W A} (a : A) : ST W A := fun w => (w, Returns a).

Definition bind {W A B} (m : ST W A) (k : A -> ST W B) : ST W B :=
  fun w =>
    match m w with
    | (w', Returns a) => k a w'
    | (w', Raises e) => (w', Raises e)
    end.

Notation "x <- m ;; k" := (bind m (fun x => k))
  (at level 61, m at next level, right associativity).

(** [try: body / except Exception as e: handler] *)
Definition try_except {W A} (body : ST W A) (handler : string -> ST W A) : ST W A :=
  fun w =>
    match body w with
    | (w', Returns a) => (w', Returns a)
    | (w', Raises e) => handler e w'
    end.

(** [for idx, x in enumerate(l): body], counting from [idx]. *)
Fixpoint for_enumerate {W A} (idx : nat) (l : list A) (body : nat -> A -> ST W unit)
    : ST W unit :=
  match l with
  | [] => ret tt
  | x :: rest => _ <- body idx x ;; for_enumerate (S idx) rest body
  end.

(** Code that runs against the connection. *)
Definition DB (A : Type) : Type := ST Connection A.

(** A query: refused in a broken transaction. *)
Definition query {A} (f : Store -> A) : DB A :=
  fun c => if needs_rollback c then (c, Raises broken_transaction)
           else (c, Returns (f (db c))).

(** A write [save()] issues: the row [row s] is offered to the backend and,
    when accepted, stored by [put]. *)
Definition write {A} (fault : Store -> A -> option Fault) (row : Store -> A)
    (put : Store -> A -> Store) : DB A :=
  fun c =>
    let r := row (db c) in
    match fault (db c) r with
    | Some (OtherError msg) => (c, Raises msg)
    | Some (DatabaseError msg) =>
        if needs_rollback c then (c, Raises broken_transaction)
        else (mark_for_rollback c, Raises msg)
    | None =>
        if needs_rollback c then (c, Raises broken_transaction)
        else (with_db c (put (db c) r), Returns r)
    end.

(** One request in autocommit mode. *)
Definition request {A} (s : Store) (m : DB A) : Store * outcome A :=
  let (c, r) := m (autocommit s) in (db c, r).

(** *** The entity gateway *)

(** [Customer.objects.filter(email=email).exists()] *)
Definition email_exists (email : string) (s : Store) : bool :=
  existsb (fun c => (Customer.email c =? email)%string) (customer_table s).

(** The customer stored under a key. *)
Definition customer_with_key (key : Z) (s : Store) : option Customer.t :=
  find (fun c => (Customer.pk c =? key)%Z) (customer_table s).

(** The product stored under a key. *)
Definition product_with_key (key : Z) (s : Store) : option Product.t :=
  find (fun p => (Product.pk p =? key)%Z) (product_table s).

(** The customer an id denotes: the id is a number and a customer is stored
    under it. *)
Definition get_customer (pk : string) (s : Store) : option Customer.t :=
  match python_int pk with
  | Some key => customer_with_key key s
  | None => None
  end.

(** The product an id denotes. *)
Definition get_product (pk : string) (s : Store) : option Product.t :=
  match python_int pk with
  | Some key => product_with_key key s
  | None => None
  end.

(** [Model.objects.get(pk=pk)] for the id [pk] of a request.  An id that is
    not a number raises [ValueError] while the query is built; otherwise the
    row under the key is looked up, and [None] stands for
    [ObjectDoesNotExist].  The range of the key column is not modelled. *)
Definition objects_get {A} (with_key : Z -> Store -> option A) (pk : string)
    : DB (option A) :=
  match python_int pk with
  | Some key => query (with_key key)
  | None => fun c => (c, Raises (not_a_number pk))
  end.

Definition add_customer (s : Store) (c : Customer.t) : Store :=
  {| customer_table := customer_table s ++ [c]; product_table := product_table s;
     order_table := order_table s |}.

Definition add_product (s : Store) (p : Product.t) : Store :=
  {| customer_table := customer_table s; product_table := product_table s ++ [p];
     order_table := order_table s |}.

Definition add_order (s : Store) (o : Order.t) : Store :=
  {| customer_table := customer_table s; product_table := product_table s;
     order_table := order_table s ++ [o] |}.

(** [Customer(name=..., email=..., phone=...)] followed by [save()], which
    gives the row its key. *)
Definition new_customer (name email : string) (phone : option string) (s : Store)
    : Customer.t :=
  {| Customer.pk := next_key (map Customer.pk (customer_table s));
     Customer.name := name;
     Customer.email := email; Customer.phone := phone |}.

Definition save_customer `{Backend} (name email : string) (phone : option string)
    : DB Customer.t :=
  write customer_save_fault (new_customer name email phone) add_customer.

(** [Product(name=..., price=..., stock=...)] followed by [save()]: the
    object keeps the price it was given. *)
Definition new_product (name : string) (price : Q) (stock : Z) (s : Store) : Product.t :=
  {| Product.pk := next_key (map Product.pk (product_table s)); Product.name := name;
     Product.price := price; Product.stock := stock |}.

(** The row [save()] writes for a product: the price is what the decimal
    column keeps of it. *)
Definition product_row `{Backend} (p : Product.t) : Product.t :=
  {| Product.pk := Product.pk p; Product.name := Product.name p;
     Product.price := price_column (Product.price p); Product.stock := Product.stock p |}.

Definition save_product `{Backend} (name : string) (price : Q) (stock : Z) : DB Product.t :=
  write product_save_fault (new_product name price stock)
    (fun s p => add_product s (product_row p)).

(** [Order(customer=..., order_date=..., total_amount=...)] followed by
    [save()]: the relation to products starts empty. *)
Definition new_order (customer : Customer.t) (order_date : Z) (total_amount : Q)
    (s : Store) : Order.t :=
  {| Order.pk := next_key (map Order.pk (order_table s));
     Order.customer := Customer.pk customer;
     Order.products := []; Order.order_date := order_date;
     Order.total_amount := total_amount |}.

Definition save_order `{Backend} (customer : Customer.t) (order_date : Z)
    (total_amount : Q) : DB Order.t :=
  write order_save_fault (new_order customer order_date total_amount) add_order.

Definition with_products (o : Order.t) (pks : list Z) : Order.t :=
  {| Order.pk := Order.pk o; Order.customer := Order.customer o;
     Order.products := pks; Order.order_date := Order.order_date o;
     Order.total_amount := Order.total_amount o |}.

(** [order.products.set(products)]: the relation of the order becomes the
    set of the given products. *)
Definition set_products (order : Order.t) (products : list Product.t) : DB Order.t :=
  fun c =>
    let order' := with_products order (nodup Z.eq_dec (map Product.pk products)) in
    let s := db c in
    (with_db c
       {| customer_table := customer_table s; product_table := product_table s;
          order_table :=
            map (fun o => if (Order.pk o =? Order.pk order)%Z then order' else o)
                (order_table s) |},
     Returns order').

(** ** The mutations *)

(** [if phone:] guards the pattern: the empty string is as good as [None]. *)
Definition truthy (s : string) : bool := negb (s =? "")%string.

(** The phone check of [CreateCustomer] and [BulkCreateCustomers]:
    [phone and not phone_regex.match(phone)]. *)
Definition phone_rejected (phone : option string) : bool :=
  match phone with
  | Some p => truthy p && negb (re_match phone_regex p)
  | None => false
  end.

Module CreateCustomer.

Record t : Type := { customer : option Customer.t; success : bool; message : string }.

Definition mutate `{Backend} (name email : string) (phone : option string) : DB t :=
  taken <- query (email_exists email) ;;
  if taken then
    ret {| customer := None; success := false; message := "Email already exists." |}
  else if phone_rejected phone then
    ret {| customer := None; success := false; message := "Invalid phone format." |}
  else
    c <- save_customer name email phone ;;
    ret {| customer := Some c; success := true;
           message := "Customer created successfully." |}.

End CreateCustomer.

Module CustomerInput.
Record t : Type := { name : string; email : string; phone : option string }.
End CustomerInput.

Module BulkCreateCustomers.

Record t : Type := { created_customers : list Customer.t; errors : list string }.

(** The connection and the two lists [mutate] fills. *)
Module Locals.
Record t : Type := { conn : Connection; created : list Customer.t; errors : list string }.
End Locals.

Definition M (A : Type) : Type := ST Locals.t A.

Definition lift {A} (m : DB A) : M A :=
  fun f =>
    let (c, r) := m (Locals.conn f) in
    ({| Locals.conn := c; Locals.created := Locals.created f;
        Locals.errors := Locals.errors f |}, r).

(** [created.append(customer)] *)
Definition created_append (customer : Customer.t) : M unit :=
  fun f =>
    ({| Locals.conn := Locals.conn f; Locals.created := Locals.created f ++ [customer];
        Locals.errors := Locals.errors f |}, Returns tt).

(** [errors.append(e)] *)
Definition errors_append (e : string) : M unit :=
  fun f =>
    ({| Locals.conn := Locals.conn f; Locals.created := Locals.created f;
        Locals.errors := Locals.errors f ++ [e] |}, Returns tt).

Definition with_conn (f : Locals.t) (c : Connection) : Locals.t :=
  {| Locals.conn := c; Locals.created := Locals.created f;
     Locals.errors := Locals.errors f |}.

(** [with transaction.atomic(): block], outermost.  The block runs in a
    transaction; leaving it commits, unless the block raised or the
    transaction was marked for rollback, in which case the data is as it was
    on entry. *)
Definition atomic {A} (block : M A) : M A :=
  fun f =>
    let saved := db (Locals.conn f) in
    match block (with_conn f {| db := saved; in_atomic_block := true;
                                needs_rollback := false |}) with
    | (f', Returns a) =>
        if needs_rollback (Locals.conn f')
        then (with_conn f' (autocommit saved), Returns a)
        else (with_conn f' (autocommit (db (Locals.conn f'))), Returns a)
    | (f', Raises e) => (with_conn f' (autocommit saved), Raises e)
    end.

(** The body of the loop; [continue] ends it early. *)
Definition row `{Backend} (idx : nat) (data : CustomerInput.t) : M unit :=
  try_except
    (taken <- lift (query (email_exists (CustomerInput.email data))) ;;
     if taken then
       errors_append ("Row " +++ string_of_nat (idx + 1) +++ ": Email '"
                      +++ CustomerInput.email data +++ "' already exists.")
     else if phone_rejected (CustomerInput.phone data) then
       errors_append ("Row " +++ string_of_nat (idx + 1) +++ ": Invalid phone format.")
     else
       customer <- lift (save_customer (CustomerInput.name data)
                           (CustomerInput.email data) (CustomerInput.phone data)) ;;
       created_append customer)
    (fun e => errors_append ("Row " +++ string_of_nat (idx + 1) +++ ": " +++ e)).

Definition mutate `{Backend} (customers : list CustomerInput.t) : DB t :=
  fun c =>
    match atomic (for_enumerate 0 customers row)
            {| Locals.conn := c; Locals.created := []; Locals.errors := [] |} with
    | (f, Returns _) =>
        (Locals.conn f,
         Returns {| created_customers := Locals.created f; errors := Locals.errors f |})
    | (f, Raises e) => (Locals.conn f, Raises e)
    end.

End BulkCreateCustomers.

Module CreateProduct.

Record t : Type := { product : option Product.t; success : bool; message : string }.

Definition mutate `{Backend} (name : string) (price : Q) (stock : Z) : DB t :=
  if Qle_bool price 0 then
    ret {| product := None; success := false; message := "Price must be positive." |}
  else if (stock <? 0)%Z then
    ret {| product := None; success := false; message := "Stock cannot be negative." |}
  else
    p <- save_product name price stock ;;
    ret {| product := Some p; success := true;
           message := "Product created successfully." |}.

End CreateProduct.

Module CreateOrder.

Record t : Type := { order : option Order.t; success : bool; message : string }.

(** The loop over [product_ids]: it ends with the products and their total,
    or leaves [mutate] at once with a failure ([inl]). *)
Fixpoint for_pid (product_ids : list string) (products : list Product.t)
    (total_amount : Q) : DB (t + list Product.t * Q) :=
  match product_ids with
  | [] => ret (inr (products, total_amount))
  | pid :: rest =>
      found <- objects_get product_with_key pid ;;
      match found with
      | Some product =>
          for_pid rest (products ++ [product]) (total_amount + Product.price product)%Q
      | None =>
          ret (inl {| order := None; success := false;
                      message := "Invalid product ID: " +++ pid |})
      end
  end.

(** [now] is what [datetime.now()] reads. *)
Definition mutate `{Backend} (now : Z) (customer_id : string)
    (product_ids : list string) (order_date : option Z) : DB t :=
  found <- objects_get customer_with_key customer_id ;;
  match found with
  | None =>
      ret {| order := None; success := false; message := "Invalid customer ID." |}
  | Some customer =>
      match product_ids with
      | [] =>
          ret {| order := None; success := false;
                 message := "At least one product must be selected." |}
      | _ :: _ =>
          looped <- for_pid product_ids [] 0%Q ;;
          match looped with
          | inl failure => ret failure
          | inr (products, total_amount) =>
              o <- save_order customer
                     (match order_date with Some d => d | None => now end)
                     total_amount ;;
              o' <- set_products o products ;;
              ret {| order := Some o'; success := true;
                     message := "Order created successfully." |}
          end
      end
  end.

End CreateOrder.

(** ** The specification's vocabulary *)

(** *** Phone numbers *)

Fixpoint all_digits (s : string) : bool :=
  match s with
  | EmptyString => true
  | String c s' => is_digit c && all_digits s'
  end.

(** A text of ASCII characters only. *)
Fixpoint only_ascii (s : string) : bool :=
  match s with
  | EmptyString => true
  | String c s' => (nat_of_ascii c <? 128) && only_ascii s'
  end.

(** A plus sign followed by 10 to 15 digits. *)
Definition international (s : string) : Prop :=
  exists ds, s = String "+" ds /\ all_digits ds = true /\
             10 <= String.length ds <= 15.

(** Groups of 3, 3 and 4 digits separated by hyphens. *)
Definition national (s : string) : Prop :=
  exists a b c,
    s = a +++ String "-" (b +++ String "-" c) /\
    (all_digits a = true /\ String.length a = 3) /\
    (all_digits b = true /\ String.length b = 3) /\
    (all_digits c = true /\ String.length c = 4).

Definition well_formed_phone (s : string) : Prop := international s \/ national s.

Definition newline : string := String LF EmptyString.

(** *** The rows of a batch, one at a time *)

(** What one row of a batch comes to on a connection: the connection it
    leaves, and either the customer it created or the reason it was not
    created. *)
Inductive row_outcome `{Backend} (c : Connection) (data : CustomerInput.t)
    : Connection -> Customer.t + string -> Prop :=
| row_broken :
    needs_rollback c = true ->
    row_outcome c data c (inr broken_transaction)
| row_duplicate :
    needs_rollback c = false ->
    email_exists (CustomerInput.email data) (db c) = true ->
    row_outcome c data c
      (inr ("Email '" +++ CustomerInput.email data +++ "' already exists."))
| row_bad_phone :
    needs_rollback c = false ->
    email_exists (CustomerInput.email data) (db c) = false ->
    phone_rejected (CustomerInput.phone data) = true ->
    row_outcome c data c (inr "Invalid phone format.")
| row_save_fails fault :
    needs_rollback c = false ->
    email_exists (CustomerInput.email data) (db c) = false ->
    phone_rejected (CustomerInput.phone data) = false ->
    customer_save_fault (db c)
      (new_customer (CustomerInput.name data) (CustomerInput.email data)
         (CustomerInput.phone data) (db c)) = Some fault ->
    row_outcome c data
      (match fault with DatabaseError _ => mark_for_rollback c | OtherError _ => c end)
      (inr (str fault))
| row_created :
    needs_rollback c = false ->
    email_exists (CustomerInput.email data) (db c) = false ->
    phone_rejected (CustomerInput.phone data) = false ->
    customer_save_fault (db c)
      (new_customer (CustomerInput.name data) (CustomerInput.email data)
         (CustomerInput.phone data) (db c)) = None ->
    row_outcome c data
      (with_db c (add_customer (db c)
                    (new_customer (CustomerInput.name data) (CustomerInput.email data)
                       (CustomerInput.phone data) (db c))))
      (inl (new_customer (CustomerInput.name data) (CustomerInput.email data)
              (CustomerInput.phone data) (db c))).

(** A batch, row after row, the first row being number [S idx]: every row
    has its outcome on the connection the rows before it left, a created
    customer is in that connection's data at once, and a row that is not
    created leaves one message that starts with its number. *)
Inductive batch_outcome `{Backend}
    : nat -> Connection -> list CustomerInput.t ->
      Connection -> list Customer.t -> list string -> Prop :=
| batch_done idx c :
    batch_outcome idx c [] c [] []
| batch_created idx c data rest c1 customer c2 created errors :
    row_outcome c data c1 (inl customer) ->
    batch_outcome (S idx) c1 rest c2 created errors ->
    batch_outcome idx c (data :: rest) c2 (customer :: created) errors
| batch_error idx c data rest c1 why c2 created errors :
    row_outcome c data c1 (inr why) ->
    batch_outcome (S idx) c1 rest c2 created errors ->
    batch_outcome idx c (data :: rest) c2 created
      (("Row " +++ string_of_nat (S idx) +++ ": " +++ why) :: errors).

(** A batch in which an INSERT raises a [DatabaseError]: one of its rows is
    reached in a transaction that takes queries, passes both checks, and the
    database refuses it. *)
Inductive database_error_in `{Backend} : Connection -> list CustomerInput.t -> Prop :=
| error_here c data rest msg :
    needs_rollback c = false ->
    email_exists (CustomerInput.email data) (db c) = false ->
    phone_rejected (CustomerInput.phone data) = false ->
    customer_save_fault (db c)
      (new_customer (CustomerInput.name data) (CustomerInput.email data)
         (CustomerInput.phone data) (db c)) = Some (DatabaseError msg) ->
    database_error_in c (data :: rest)
| error_later c data rest c1 o :
    row_outcome c data c1 o ->
    database_error_in c1 rest ->
    database_error_in c (data :: rest).

(** The messages of rows met in a broken transaction, the first row being
    number [S idx]. *)
Fixpoint broken_rows (idx : nat) (customers : list CustomerInput.t) : list string :=
  match customers with
  | [] => []
  | _ :: rest =>
      ("Row " +++ string_of_nat (S idx) +++ ": " +++ broken_transaction)
      :: broken_rows (S idx) rest
  end.

(** One turn of the loop appends to one list, whatever the row. *)
Definition after_row (f : BulkCreateCustomers.Locals.t) (idx : nat) (c' : Connection)
    (o : Customer.t + string) : BulkCreateCustomers.Locals.t :=
  let created := BulkCreateCustomers.Locals.created f in
  let errors := BulkCreateCustomers.Locals.errors f in
  match o with
  | inl customer =>
      {| BulkCreateCustomers.Locals.conn := c';
         BulkCreateCustomers.Locals.created := created ++ [customer];
         BulkCreateCustomers.Locals.errors := errors |}
  | inr why =>
      {| BulkCreateCustomers.Locals.conn := c';
         BulkCreateCustomers.Locals.created := created;
         BulkCreateCustomers.Locals.errors :=
           errors ++ ["Row " +++ string_of_nat (S idx) +++ ": " +++ why] |}
  end.

(** What a row and its outcome have in common: a created customer carries
    the fields of the row, a message starts with the number of the row. *)
Definition outcome_of (n : nat) (data : CustomerInput.t) (o : Customer.t + string)
    : Prop :=
  match o with
  | inl c =>
      Customer.name c = CustomerInput.name data /\
      Customer.email c = CustomerInput.email data /\
      Customer.phone c = CustomerInput.phone data
  | inr e => exists why, e = "Row " +++ string_of_nat n +++ ": " +++ why
  end.

(** The message a row that was not created leaves, [n] being its number. *)
Definition after_error (n : nat) (o : Customer.t + string) : Customer.t + string :=
  match o with
  | inl c => inl c
  | inr why => inr ("Row " +++ string_of_nat n +++ ": " +++ why)
  end.

(** The connection a batch starts on. *)
Definition begin (s : Store) : Connection :=
  {| db := s; in_atomic_block := true; needs_rollback := false |}.

(** The customers, and the messages, of a list of outcomes. *)
Fixpoint lefts {A B} (l : list (A + B)) : list A :=
  match l with
  | [] => []
  | inl a :: l' => a :: lefts l'
  | inr _ :: l' => lefts l'
  end.

Fixpoint rights {A B} (l : list (A + B)) : list B :=
  match l with
  | [] => []
  | inl _ :: l' => rights l'
  | inr b :: l' => b :: rights l'
  end.

(** The store with more customers. *)
Definition with_customers (s : Store) (cs : list Customer.t) : Store :=
  {| customer_table := customer_table s ++ cs; product_table := product_table s;
     order_table := order_table s |}.

(** *** Orders *)

(** The sum of the prices of a list of products. *)
Definition sum_prices (ps : list Product.t) : Q :=
  fold_right (fun p acc => (Product.price p + acc)%Q) 0%Q ps.

(** ** Sample data *)

Definition ada : Customer.t :=
  {| Customer.pk := 1; Customer.name := "Ada"; Customer.email := "ada@example.com";
     Customer.phone := None |}.

Definition store_with_ada : Store :=
  {| customer_table := [ada]; product_table := []; order_table := [] |}.

Definition row_ada : CustomerInput.t :=
  {| CustomerInput.name := "Ada"; CustomerInput.email := "ada@example.com";
     CustomerInput.phone := None |}.

Definition row_countess : CustomerInput.t :=
  {| CustomerInput.name := "Countess"; CustomerInput.email := "ada@example.com";
     CustomerInput.phone := Some "123-456-7890" |}.

Definition row_grace : CustomerInput.t :=
  {| CustomerInput.name := "Grace"; CustomerInput.email := "grace@example.com";
     CustomerInput.phone := Some "+12025550123" |}.

Definition row_blank : CustomerInput.t :=
  {| CustomerInput.name := "Blank"; CustomerInput.email := "blank@example.com";
     CustomerInput.phone := Some "" |}.

(** A name of 101 characters. *)
Definition long_name : string := string_of_list_ascii (repeat "x"%char 101).

Definition row_long : CustomerInput.t :=
  {| CustomerInput.name := long_name; CustomerInput.email := "long@example.com";
     CustomerInput.phone := None |}.

Definition pen : Product.t :=
  {| Product.pk := 1; Product.name := "Pen"; Product.price := 3 # 2;
     Product.stock := 10%Z |}.

Definition ink : Product.t :=
  {| Product.pk := 2; Product.name := "Ink"; Product.price := 5 # 1;
     Product.stock := 0%Z |}.

Definition shop : Store :=
  {| customer_table := [ada]; product_table := [pen; ink]; order_table := [] |}.

(** ** Invariants of the store *)

(** No two stored customers share an email. *)
Definition unique_emails (s : Store) : Prop :=
  NoDup (map Customer.email (customer_table s)).

(** Every stored product has a price above zero and a stock of zero or
    more. *)
Definition valid_products (s : Store) : Prop :=
  Forall (fun p => (0 < Product.price p)%Q /\ (0 <= Product.stock p)%Z)
    (product_table s).

(** Every stored product went through the checks of [CreateProduct]: its
    stock is zero or more, and its price is what the decimal column keeps of
    a price above zero. *)
Definition checked_products `{Backend} (s : Store) : Prop :=
  Forall (fun p =>
            (exists price, (0 < price)%Q /\ (Product.price p == price_column price)%Q) /\
            (0 <= Product.stock p)%Z)
    (product_table s).

(** The customer a result carries, as a list. *)
Definition created_by (r : outcome CreateCustomer.t) : list Customer.t :=
  match r with
  | Returns {| CreateCustomer.customer := Some c |} => [c]
  | _ => []
  end.

(** A row of a batch as the arguments of [CreateCustomer]. *)
Definition as_row (name email : string) (phone : option string) : CustomerInput.t :=
  {| CustomerInput.name := name; CustomerInput.email := email;
     CustomerInput.phone := phone |}.

(** The rows of a batch sent one at a time to [CreateCustomer]: the store
    they leave and the customers they create. *)
Fixpoint one_by_one `{Backend} (s : Store) (customers : list CustomerInput.t)
    : Store * list Customer.t :=
  match customers with
  | [] => (s, [])
  | data :: rest =>
      let (s1, r) :=
        request s (CreateCustomer.mutate (CustomerInput.name data)
                     (CustomerInput.email data) (CustomerInput.phone data)) in
      let (s2, created) := one_by_one s1 rest in
      (s2, created_by r ++ created)
  end.

(** An order whose customer and products are in the store. *)
Definition order_resolves (s : Store) (o : Order.t) : Prop :=
  customer_with_key (Order.customer o) s <> None /\
  Forall (fun key => product_with_key key s <> None) (Order.products o).

(** Every stored order refers to a stored customer and to stored products. *)
Definition references_resolve (s : Store) : Prop :=
  Forall (order_resolves s) (order_table s).

(** A shop with one order. *)
Definition first_order : Order.t :=
  {| Order.pk := 1; Order.customer := 1; Order.products := [1; 2]%Z;
     Order.order_date := 0%Z; Order.total_amount := 13 # 2 |}.

Definition shop_with_order : Store :=
  {| customer_table := [ada]; product_table := [pen; ink];
     order_table := [first_order] |}.

(** ** The phone pattern *)

Section Pattern.

Local Open Scope bool_scope.

Example phone_international : re_match phone_regex "+1234567890" = true.
Proof. reflexivity. Qed.

Example phone_national : re_match phone_regex "123-456-7890" = true.
Proof. reflexivity. Qed.

Example phone_nine_digits : re_match phone_regex "+123456789" = false.
Proof. reflexivity. Qed.

Example phone_sixteen_digits : re_match phone_regex "+1234567890123456" = false.
Proof. reflexivity. Qed.

Example phone_two_newlines :
  re_match phone_regex ("123-456-7890" +++ newline +++ newline) = false.
Proof. reflexivity. Qed.

Lemma append_empty_r (s : string) : s +++ "" = s.
Proof. induction s as [|c s IH]; simpl; [reflexivity | now rewrite IH]. Qed.

Lemma append_assoc (a b c : string) : (a +++ b) +++ c = a +++ b +++ c.
Proof. induction a as [|x a IH]; simpl; [reflexivity | now rewrite IH]. Qed.

Lemma length_append (a b : string) :
  String.length (a +++ b) = String.length a + String.length b.
Proof. induction a as [|x a IH]; simpl; [reflexivity | now rewrite IH]. Qed.

Lemma all_digits_append (a b : string) :
  all_digits (a +++ b) = all_digits a && all_digits b.
Proof.
  induction a as [|x a IH]; simpl; [reflexivity | now rewrite IH, andb_assoc].
Qed.

(** A string of at least [n] characters, cut after the first [n]. *)
Lemma cut_at n : forall s, n <= String.length s ->
  exists a b, s = a +++ b /\ String.length a = n.
Proof.
  induction n as [|n IH]; intros s L.
  - now exists "", s.
  - destruct s as [|x s]; [simpl in L; lia |].
    destruct (IH s) as (a & b & -> & La); [simpl in L; lia |].
    exists (String x a), b. simpl. now rewrite La.
Qed.

Lemma run_Chr c pos s k :
  run (Chr c) pos s k = true <-> exists t, s = String c t /\ k (S pos) t = true.
Proof.
  simpl. destruct s as [|x s].
  - split; [discriminate | intros (t & E & _); discriminate].
  - rewrite andb_true_iff, Ascii.eqb_eq. split.
    + intros [-> K]. now exists s.
    + intros (t & E & K). injection E as -> ->. now split.
Qed.

(** Exactly [n] digits. *)
Lemma times_Digit n : forall pos s k,
  times (run Digit) n pos s k = true <->
  exists ds t, s = ds +++ t /\ all_digits ds = true /\ String.length ds = n /\
               k (n + pos) t = true.
Proof.
  induction n as [|n IH]; intros pos s k; simpl.
  - split.
    + intros K. exists "", s. now repeat split.
    + intros (ds & t & -> & _ & L & K). destruct ds; [exact K | discriminate].
  - destruct s as [|x s].
    + split; [discriminate |].
      intros (ds & t & E & _ & L & _). destruct ds; discriminate.
    + rewrite andb_true_iff, IH. split.
      * intros (D & ds & t & -> & A & L & K).
        exists (String x ds), t. simpl. rewrite D, A, L.
        rewrite Nat.add_succ_r in K. now repeat split.
      * intros (ds & t & E & A & L & K).
        destruct ds as [|y ds]; [discriminate |].
        simpl in E, A, L. injection E as -> ->. injection L as L.
        apply andb_true_iff in A as [D A]. split; [exact D |].
        exists ds, t. rewrite Nat.add_succ_r. now repeat split.
Qed.

(** At most [n] digits. *)
Lemma upto_Digit n : forall pos s k,
  upto (run Digit) n pos s k = true <->
  exists ds t, s = ds +++ t /\ all_digits ds = true /\ String.length ds <= n /\
               k (String.length ds + pos) t = true.
Proof.
  induction n as [|n IH]; intros pos s k; simpl.
  - split.
    + intros K. exists "", s. now repeat split.
    + intros (ds & t & -> & _ & L & K).
      destruct ds; [exact K | simpl in L; lia].
  - rewrite orb_true_iff. split.
    + intros [M | K].
      * destruct s as [|x s]; [discriminate |].
        apply andb_true_iff in M as [D M]. apply IH in M as (ds & t & -> & A & L & K).
        exists (String x ds), t. simpl. rewrite D, A.
        rewrite Nat.add_succ_r in K. repeat split; [lia | exact K].
      * exists "", s. repeat split; [simpl; lia | exact K].
    + intros (ds & t & -> & A & L & K). destruct ds as [|y ds].
      * right. exact K.
      * left. simpl in *. apply andb_true_iff in A as [D A].
        rewrite D. simpl. apply IH. exists ds, t.
        rewrite Nat.add_succ_r. repeat split; [exact A | lia | exact K].
Qed.

(** Between [lo] and [hi] digits. *)
Lemma run_Rep_Digit lo hi pos s k : lo <= hi ->
  run (Rep Digit lo hi) pos s k = true <->
  exists ds t, s = ds +++ t /\ all_digits ds = true /\
               lo <= String.length ds <= hi /\ k (String.length ds + pos) t = true.
Proof.
  intros Hle. simpl. rewrite times_Digit. split.
  - intros (d1 & t1 & -> & A1 & L1 & U).
    apply upto_Digit in U as (d2 & t & -> & A2 & L2 & K).
    exists (d1 +++ d2), t.
    rewrite append_assoc, all_digits_append, length_append, A1, A2, L1.
    replace (lo + String.length d2 + pos) with (String.length d2 + (lo + pos)) by lia.
    repeat split; [lia | lia | exact K].
  - intros (ds & t & -> & A & L & K).
    destruct (cut_at lo ds) as (d1 & d2 & -> & L1); [lia |].
    rewrite all_digits_append in A. apply andb_true_iff in A as [A1 A2].
    rewrite length_append in L, K.
    exists d1, (d2 +++ t). rewrite append_assoc. repeat split; [exact A1 | exact L1 |].
    apply upto_Digit. exists d2, t. repeat split; [exact A2 | lia |].
    replace (String.length d2 + (lo + pos))
      with (String.length d1 + String.length d2 + pos) by lia.
    exact K.
Qed.

Lemma at_end_iff (s : string) : at_end s = true <-> s = "" \/ s = newline.
Proof.
  unfold newline. destruct s as [|c [|d s]]; simpl.
  - split; [now left | reflexivity].
  - rewrite Ascii.eqb_eq. split.
    + intros ->. now right.
    + intros [E | E]; [discriminate | now injection E].
  - split; [discriminate | intros [E | E]; discriminate].
Qed.

(** What the pattern of the mutations matches: a well-formed phone number,
    alone or followed by one newline. *)
Lemma phone_regex_matches (s : string) :
  re_match phone_regex s = true <->
  exists p t, s = p +++ t /\ well_formed_phone p /\ (t = "" \/ t = newline).
Proof.
  unfold re_match, phone_regex.
  change (run (Seq Bol ?r) 0 s ?k) with (run r 0 s k).
  change (run (Seq (Alt ?a ?b) Eol) 0 s ?k)
    with (run a 0 s (fun pos' s' => at_end s' && k pos' s')
          || run b 0 s (fun pos' s' => at_end s' && k pos' s')).
  rewrite orb_true_iff. split.
  - intros [M | M].
    + change (run (Seq ?a ?b) ?p ?x ?k) with (run a p x (fun p' x' => run b p' x' k)) in M.
      apply run_Chr in M as (t1 & -> & M).
      apply run_Rep_Digit in M as (ds & t & -> & A & L & E); [| lia].
      rewrite andb_true_r in E. apply at_end_iff in E.
      exists (String "+" ds), t. repeat split; [| exact E].
      left. exists ds. now repeat split.
    + change (run (Seq ?a ?b) ?p ?x ?k) with (run a p x (fun p' x' => run b p' x' k)) in M.
      apply run_Rep_Digit in M as (a & t1 & -> & Aa & La & M); [| lia].
      change (run (Seq ?a ?b) ?p ?x ?k) with (run a p x (fun p' x' => run b p' x' k)) in M.
      apply run_Chr in M as (t2 & -> & M).
      change (run (Seq ?a ?b) ?p ?x ?k) with (run a p x (fun p' x' => run b p' x' k)) in M.
      apply run_Rep_Digit in M as (b & t3 & -> & Ab & Lb & M); [| lia].
      change (run (Seq ?a ?b) ?p ?x ?k) with (run a p x (fun p' x' => run b p' x' k)) in M.
      apply run_Chr in M as (t4 & -> & M).
      apply run_Rep_Digit in M as (c & t & -> & Ac & Lc & E); [| lia].
      rewrite andb_true_r in E. apply at_end_iff in E.
      exists (a +++ String "-" (b +++ String "-" c)), t. repeat split; [| | exact E].
      * rewrite append_assoc. simpl. rewrite append_assoc. simpl. reflexivity.
      * right. exists a, b, c. repeat split; solve [assumption | lia].
  - intros (p & t & -> & W & E).
    destruct W as [(ds & -> & A & L)
                  | (a & b & c & -> & (Aa & La) & (Ab & Lb) & (Ac & Lc))].
    + left.
      change (run (Seq ?a ?b) ?p ?x ?k) with (run a p x (fun p' x' => run b p' x' k)).
      apply run_Chr. exists (ds +++ t). split; [reflexivity |].
      apply run_Rep_Digit; [lia |]. exists ds, t.
      repeat split; try solve [assumption | lia].
      rewrite andb_true_r. now apply at_end_iff.
    + right.
      change (run (Seq ?a ?b) ?p ?x ?k) with (run a p x (fun p' x' => run b p' x' k)).
      apply run_Rep_Digit; [lia |].
      exists a, (String "-" (b +++ String "-" (c +++ t))).
      repeat split; try solve [assumption | lia].
      { rewrite append_assoc. simpl. rewrite append_assoc. reflexivity. }
      change (run (Seq ?a ?b) ?p ?x ?k) with (run a p x (fun p' x' => run b p' x' k)).
      apply run_Chr. eexists. split; [reflexivity |].
      change (run (Seq ?a ?b) ?p ?x ?k) with (run a p x (fun p' x' => run b p' x' k)).
      apply run_Rep_Digit; [lia |]. exists b, (String "-" (c +++ t)).
      repeat split; try solve [assumption | lia].
      change (run (Seq ?a ?b) ?p ?x ?k) with (run a p x (fun p' x' => run b p' x' k)).
      apply run_Chr. eexists. split; [reflexivity |].
      apply run_Rep_Digit; [lia |]. exists c, t.
      repeat split; try solve [assumption | lia].
      rewrite andb_true_r. now apply at_end_iff.
Qed.

End Pattern.

(** ** CreateCustomer *)

Lemma email_exists_iff (email : string) (s : Store) :
  email_exists email s = true <->
  exists c, In c (customer_table s) /\ Customer.email c = email.
Proof.
  unfold email_exists. rewrite existsb_exists.
  split; intros (c & I & E); exists c; (split; [exact I |]); now apply String.eqb_eq.
Qed.

(** The call on a store that holds the email. *)
Lemma create_customer_taken (B : Backend) s name email phone :
  email_exists email s = true ->
  request s (CreateCustomer.mutate name email phone)
  = (s, Returns {| CreateCustomer.customer := None; CreateCustomer.success := false;
                   CreateCustomer.message := "Email already exists." |}).
Proof.
  intros T. unfold request, CreateCustomer.mutate, bind, query. simpl.
  now rewrite T.
Qed.

(** The call past both checks, the store accepting the row. *)
Lemma create_customer_saved (B : Backend) s name email phone :
  email_exists email s = false ->
  phone_rejected phone = false ->
  customer_save_fault s (new_customer name email phone s) = None ->
  request s (CreateCustomer.mutate name email phone)
  = (add_customer s (new_customer name email phone s),
     Returns {| CreateCustomer.customer := Some (new_customer name email phone s);
                CreateCustomer.success := true;
                CreateCustomer.message := "Customer created successfully." |}).
Proof.
  intros T P F.
  unfold request, CreateCustomer.mutate, bind, query, save_customer, write. simpl.
  rewrite T, P. simpl. now rewrite F.
Qed.

(** The call past both checks, the store refusing the row. *)
Lemma create_customer_refused (B : Backend) s name email phone fault :
  email_exists email s = false ->
  phone_rejected phone = false ->
  customer_save_fault s (new_customer name email phone s) = Some fault ->
  request s (CreateCustomer.mutate name email phone) = (s, Raises (str fault)).
Proof.
  intros T P F.
  unfold request, CreateCustomer.mutate, bind, query, save_customer, write. simpl.
  rewrite T, P. simpl. rewrite F. now destruct fault.
Qed.

(** C5.  A [CreateCustomer] call whose email is the email of a stored
    customer fails with "Email already exists." and leaves the store as it
    was: no record is created. *)
Theorem create_customer_duplicate_email (B : Backend) (s : Store)
    (name email : string) (phone : option string) :
  (exists c, In c (customer_table s) /\ Customer.email c = email) ->
  request s (CreateCustomer.mutate name email phone)
  = (s, Returns {| CreateCustomer.customer := None; CreateCustomer.success := false;
                   CreateCustomer.message := "Email already exists." |}).
Proof.
  intros E. apply create_customer_taken. now apply email_exists_iff.
Qed.

Lemma create_customer_duplicate_email_witness :
  request store_with_ada
    (@CreateCustomer.mutate reliable "Countess" "ada@example.com" (Some "+441234567890"))
  = (store_with_ada,
     Returns {| CreateCustomer.customer := None; CreateCustomer.success := false;
                CreateCustomer.message := "Email already exists." |}).
Proof.
  apply (create_customer_duplicate_email reliable store_with_ada).
  exists ada. split; [simpl; now left | reflexivity].
Defined.

(** C8, as the code has it.  Whenever [CreateCustomer] returns, the result
    carries a customer and [success = True], the customer being one more row
    of the table, or no customer and [success = False], the store being as it
    was, and never both.  An email of the store gives the failure "Email
    already exists."; otherwise a phone the check refuses gives "Invalid
    phone format.".  Past both checks, an exception of [save()] is not
    caught: the call raises it to its caller and stores nothing; and when
    [save()] does not raise, the call returns the customer with success. *)
Theorem create_customer_result_or_save_exception (B : Backend) (s : Store)
    (name email : string) (phone : option string) :
  (forall s' r,
     request s (CreateCustomer.mutate name email phone) = (s', Returns r) ->
     (exists c, CreateCustomer.customer r = Some c /\
                CreateCustomer.success r = true /\
                customer_table s' = customer_table s ++ [c])
     \/ (CreateCustomer.customer r = None /\
         CreateCustomer.success r = false /\ s' = s))
  /\
  (email_exists email s = true ->
   request s (CreateCustomer.mutate name email phone)
   = (s, Returns {| CreateCustomer.customer := None; CreateCustomer.success := false;
                    CreateCustomer.message := "Email already exists." |}))
  /\
  (email_exists email s = false -> phone_rejected phone = true ->
   request s (CreateCustomer.mutate name email phone)
   = (s, Returns {| CreateCustomer.customer := None; CreateCustomer.success := false;
                    CreateCustomer.message := "Invalid phone format." |}))
  /\
  (forall fault,
     email_exists email s = false -> phone_rejected phone = false ->
     customer_save_fault s (new_customer name email phone s) = Some fault ->
     request s (CreateCustomer.mutate name email phone) = (s, Raises (str fault)))
  /\
  (email_exists email s = false -> phone_rejected phone = false ->
   customer_save_fault s (new_customer name email phone s) = None ->
   exists s' c,
     request s (CreateCustomer.mutate name email phone)
     = (s', Returns {| CreateCustomer.customer := Some c;
                       CreateCustomer.success := true;
                       CreateCustomer.message := "Customer created successfully." |}) /\
     customer_table s' = customer_table s ++ [c] /\
     Customer.name c = name /\ Customer.email c = email /\ Customer.phone c = phone).
Proof.
  assert (Taken : email_exists email s = true ->
                  request s (CreateCustomer.mutate name email phone)
                  = (s, Returns {| CreateCustomer.customer := None;
                                   CreateCustomer.success := false;
                                   CreateCustomer.message := "Email already exists." |}))
    by apply create_customer_taken.
  assert (Bad : email_exists email s = false -> phone_rejected phone = true ->
                request s (CreateCustomer.mutate name email phone)
                = (s, Returns {| CreateCustomer.customer := None;
                                 CreateCustomer.success := false;
                                 CreateCustomer.message := "Invalid phone format." |})).
  { intros T P. unfold request, CreateCustomer.mutate, bind, query. simpl.
    now rewrite T, P. }
  split; [| split; [exact Taken | split; [exact Bad | split]]].
  - intros s' r E.
    destruct (email_exists email s) eqn:T.
    { rewrite Taken in E by reflexivity. injection E as <- <-. right. now repeat split. }
    destruct (phone_rejected phone) eqn:P.
    { rewrite Bad in E by reflexivity. injection E as <- <-. right. now repeat split. }
    destruct (customer_save_fault s (new_customer name email phone s)) as [fault|] eqn:F.
    + rewrite (create_customer_refused B s name email phone fault) in E by assumption.
      discriminate E.
    + rewrite create_customer_saved in E by assumption. injection E as <- <-.
      left. eexists. now repeat split.
  - intros fault T P F. now apply create_customer_refused.
  - intros T P F. do 2 eexists. split; [now apply create_customer_saved |].
    now repeat split.
Qed.

Lemma create_customer_result_or_save_exception_witness :
  (request store_with_ada
     (@CreateCustomer.mutate strict_names long_name "long@example.com" None)
   = (store_with_ada, Raises "value too long for type character varying(100)"))
  /\
  (request store_with_ada
     (@CreateCustomer.mutate strict_names "Grace" "ada@example.com" None)
   = (store_with_ada,
      Returns {| CreateCustomer.customer := None; CreateCustomer.success := false;
                 CreateCustomer.message := "Email already exists." |}))
  /\
  (request store_with_ada
     (@CreateCustomer.mutate strict_names "Grace" "grace@example.com" (Some "12"))
   = (store_with_ada,
      Returns {| CreateCustomer.customer := None; CreateCustomer.success := false;
                 CreateCustomer.message := "Invalid phone format." |}))
  /\
  (exists s' c,
     request store_with_ada
       (@CreateCustomer.mutate strict_names "Grace" "grace@example.com" None)
     = (s', Returns {| CreateCustomer.customer := Some c;
                       CreateCustomer.success := true;
                       CreateCustomer.message := "Customer created successfully." |}) /\
     customer_table s' = [ada; c]).
Proof.
  split; [| split; [| split]].
  - destruct (create_customer_result_or_save_exception strict_names store_with_ada
                long_name "long@example.com" None) as (_ & _ & _ & Raise & _).
    apply (Raise (DatabaseError "value too long for type character varying(100)"));
      reflexivity.
  - apply (create_customer_result_or_save_exception strict_names store_with_ada
             "Grace" "ada@example.com" None). reflexivity.
  - apply (create_customer_result_or_save_exception strict_names store_with_ada
             "Grace" "grace@example.com" (Some "12")); reflexivity.
  - destruct (create_customer_result_or_save_exception strict_names store_with_ada
                "Grace" "grace@example.com" None) as (_ & _ & _ & _ & Saved).
    destruct Saved as (s' & c & E & T & _); try reflexivity.
    exists s', c. split; [exact E | exact T].
Defined.

(** C8, read as "never raises", does not hold: on a database that refuses
    the write, the call raises. *)
Lemma create_customer_raises :
  request empty_store (@CreateCustomer.mutate locked "Ada" "ada@example.com" None)
  = (empty_store, Raises "database is locked").
Proof. reflexivity. Qed.

(** *** The phone argument *)

(** The phone check lets a non-empty phone through exactly when it is a
    well-formed number, alone or followed by one newline. *)
Lemma phone_accepted_iff (p : string) :
  p <> "" ->
  phone_rejected (Some p) = false <->
  well_formed_phone p \/ exists q, p = q +++ newline /\ well_formed_phone q.
Proof.
  intros N. unfold phone_rejected, truthy.
  apply String.eqb_neq in N. rewrite N. simpl.
  rewrite negb_false_iff, phone_regex_matches. split.
  - intros (q & t & -> & W & [-> | ->]).
    + left. now rewrite append_empty_r.
    + right. now exists q.
  - intros [W | (q & -> & W)].
    + exists p, "". rewrite append_empty_r. now repeat split; [| left].
    + exists q, newline. now repeat split; [| right].
Qed.

(** Every well-formed number is accepted. *)
Lemma well_formed_phone_accepted (p : string) :
  well_formed_phone p -> phone_rejected (Some p) = false.
Proof.
  intros W. destruct (string_dec p "") as [-> | N]; [reflexivity |].
  apply phone_accepted_iff; [exact N | now left].
Qed.

(** An absent phone is accepted. *)
Lemma absent_phone_accepted : phone_rejected None = false.
Proof. reflexivity. Qed.

Lemma newline_number_not_well_formed :
  ~ well_formed_phone ("+1234567890" +++ newline).
Proof.
  intros [(ds & E & A & _) | (a & b & c & E & (_ & La) & _)].
  - injection E as <-. discriminate A.
  - destruct a as [|a1 [|a2 [|a3 [|a4 a]]]]; try discriminate La.
    discriminate E.
Qed.

(** C4, where the code departs from it.  The phone "+1234567890" followed
    by a newline is not a plus sign followed by 10 to 15 digits, nor three
    groups of digits; the phone check accepts it, and [CreateCustomer]
    stores it. *)
Theorem phone_with_trailing_newline_accepted :
  ~ well_formed_phone ("+1234567890" +++ newline) /\
  re_match phone_regex ("+1234567890" +++ newline) = true /\
  request empty_store
    (@CreateCustomer.mutate reliable "Ada" "ada@example.com"
       (Some ("+1234567890" +++ newline)))
  = (add_customer empty_store
       {| Customer.pk := 1; Customer.name := "Ada";
          Customer.email := "ada@example.com";
          Customer.phone := Some ("+1234567890" +++ newline) |},
     Returns
       {| CreateCustomer.customer :=
            Some {| Customer.pk := 1; Customer.name := "Ada";
                    Customer.email := "ada@example.com";
                    Customer.phone := Some ("+1234567890" +++ newline) |};
          CreateCustomer.success := true;
          CreateCustomer.message := "Customer created successfully." |}).
Proof.
  split; [exact newline_number_not_well_formed |].
  split; reflexivity.
Qed.

(** ** BulkCreateCustomers *)

Section Bulk.

Context {B : Backend}.

Import BulkCreateCustomers.

Lemma row_spec (idx : nat) (data : CustomerInput.t) (f : Locals.t) :
  exists c' o,
    row_outcome (Locals.conn f) data c' o /\
    row idx data f = (after_row f idx c' o, Returns tt).
Proof.
  unfold row, try_except, bind, lift, query, after_row.
  rewrite Nat.add_1_r.
  destruct (needs_rollback (Locals.conn f)) eqn:R.
  { exists (Locals.conn f), (inr broken_transaction).
    split; [now constructor | reflexivity]. }
  destruct (email_exists (CustomerInput.email data) (db (Locals.conn f))) eqn:T.
  { eexists _, (inr _). split; [now apply row_duplicate | reflexivity]. }
  destruct (phone_rejected (CustomerInput.phone data)) eqn:P.
  { eexists _, (inr _). split; [now apply row_bad_phone | reflexivity]. }
  unfold save_customer, write. simpl.
  destruct (customer_save_fault (db (Locals.conn f))
              (new_customer (CustomerInput.name data) (CustomerInput.email data)
                 (CustomerInput.phone data) (db (Locals.conn f)))) as [fault|] eqn:F.
  - eexists _, (inr (str fault)).
    split; [now apply (row_save_fails _ _ fault) |].
    destruct fault; simpl; rewrite ?R; reflexivity.
  - eexists _, (inl _). split; [now apply row_created |].
    simpl. rewrite R. reflexivity.
Qed.

Lemma loop_spec (customers : list CustomerInput.t) : forall idx f,
  exists c' created errors,
    batch_outcome idx (Locals.conn f) customers c' created errors /\
    for_enumerate idx customers row f
    = ({| Locals.conn := c'; Locals.created := Locals.created f ++ created;
          Locals.errors := Locals.errors f ++ errors |}, Returns tt).
Proof.
  induction customers as [|data rest IH]; intros idx f.
  - exists (Locals.conn f), [], []. split; [constructor |].
    simpl. unfold ret. rewrite !app_nil_r. now destruct f.
  - destruct (row_spec idx data f) as (c1 & o & O & E).
    destruct (IH (S idx) (after_row f idx c1 o)) as (c2 & cs & es & Bt & L).
    simpl. unfold bind. rewrite E, L.
    destruct o as [customer | why]; simpl in *.
    + exists c2, (customer :: cs), es.
      split; [now apply (batch_created _ _ _ _ c1) |].
      now rewrite <- app_assoc.
    + exists c2, cs, (("Row " +++ string_of_nat (S idx) +++ ": " +++ why) :: es).
      split; [now apply (batch_error _ _ _ _ c1) |].
      now rewrite <- app_assoc.
Qed.

(** A row that is not created leaves the data alone. *)
Lemma row_error_db c data c' why :
  row_outcome c data c' (inr why) -> db c' = db c.
Proof.
  intros O. inversion O; subst; try reflexivity.
  now destruct fault.
Qed.

(** A created customer is the row, under a new key. *)
Lemma row_created_fields c data c' customer :
  row_outcome c data c' (inl customer) ->
  customer = new_customer (CustomerInput.name data) (CustomerInput.email data)
               (CustomerInput.phone data) (db c) /\
  db c' = add_customer (db c) customer.
Proof. intros O. inversion O; subst. now split. Qed.

Lemma with_customers_nil s : with_customers s [] = s.
Proof. unfold with_customers. rewrite app_nil_r. now destruct s. Qed.

Lemma with_customers_cons s c cs :
  with_customers (add_customer s c) cs = with_customers s (c :: cs).
Proof. unfold with_customers, add_customer. simpl. now rewrite <- app_assoc. Qed.

(** The data of the connection after a batch: the created customers, added
    in order. *)
Lemma batch_db idx c customers c' created errors :
  batch_outcome idx c customers c' created errors ->
  db c' = with_customers (db c) created.
Proof.
  induction 1 as [idx c | idx c data rest c1 customer c2 cs es O _ IH
                 | idx c data rest c1 why c2 cs es O _ IH].
  - now rewrite with_customers_nil.
  - apply row_created_fields in O as [_ E].
    now rewrite IH, E, with_customers_cons.
  - apply row_error_db in O. now rewrite IH, O.
Qed.

(** Without a [DatabaseError], the transaction is never marked. *)
Lemma batch_not_marked idx c customers c' created errors :
  (forall s row msg, customer_save_fault s row <> Some (DatabaseError msg)) ->
  batch_outcome idx c customers c' created errors ->
  needs_rollback c = false -> needs_rollback c' = false.
Proof.
  intros NoDb. induction 1 as [idx c | idx c data rest c1 customer c2 cs es O _ IH
                              | idx c data rest c1 why c2 cs es O _ IH]; intros R.
  - exact R.
  - apply IH. inversion O; subst. exact R.
  - apply IH. inversion O; subst; try exact R.
    destruct fault as [msg | msg]; [| exact R].
    exfalso. eapply NoDb. eassumption.
Qed.

(** The whole call: the rows have their outcomes one after the other, the
    call returns them, and the store is committed or rolled back. *)
Lemma mutate_spec (s : Store) (customers : list CustomerInput.t) :
  exists c' created errors,
    batch_outcome 0 (begin s) customers c' created errors /\
    request s (mutate customers)
    = ((if needs_rollback c' then s else with_customers s created),
       Returns {| created_customers := created; errors := errors |}).
Proof.
  destruct (loop_spec customers 0
              {| Locals.conn := begin s; Locals.created := []; Locals.errors := [] |})
    as (c' & cs & es & Bt & L).
  exists c', cs, es. split; [exact Bt |].
  unfold request, mutate, atomic, with_conn. simpl.
  unfold begin in L. rewrite L. simpl.
  apply batch_db in Bt. simpl in Bt.
  destruct (needs_rollback c'); simpl; [reflexivity | now rewrite Bt].
Qed.

(** The equations of one turn of the loop. *)
Lemma row_created_eq (idx : nat) (data : CustomerInput.t) (f : Locals.t) :
  let c := Locals.conn f in
  let customer := new_customer (CustomerInput.name data) (CustomerInput.email data)
                    (CustomerInput.phone data) (db c) in
  needs_rollback c = false ->
  email_exists (CustomerInput.email data) (db c) = false ->
  phone_rejected (CustomerInput.phone data) = false ->
  customer_save_fault (db c) customer = None ->
  row idx data f
  = (after_row f idx (with_db c (add_customer (db c) customer)) (inl customer),
     Returns tt).
Proof.
  intros c customer R T P F. subst c customer.
  unfold row, try_except, bind, lift, query, save_customer, write, after_row.
  rewrite R, T, P. simpl. rewrite F, R. reflexivity.
Qed.

Lemma row_duplicate_eq (idx : nat) (data : CustomerInput.t) (f : Locals.t) :
  needs_rollback (Locals.conn f) = false ->
  email_exists (CustomerInput.email data) (db (Locals.conn f)) = true ->
  row idx data f
  = (after_row f idx (Locals.conn f)
       (inr ("Email '" +++ CustomerInput.email data +++ "' already exists.")),
     Returns tt).
Proof.
  intros R T.
  unfold row, try_except, bind, lift, query, after_row.
  rewrite R, T, Nat.add_1_r. reflexivity.
Qed.

Lemma email_exists_add (email : string) (s : Store) (c : Customer.t) :
  email_exists email (add_customer s c)
  = email_exists email s || (Customer.email c =? email)%string.
Proof.
  unfold email_exists, add_customer. simpl.
  rewrite existsb_app. simpl. now rewrite orb_false_r.
Qed.

(** Three rows, the second a duplicate, the other two good. *)
Lemma three_rows (s : Store) (r1 r2 r3 : CustomerInput.t) :
  let c1 := new_customer (CustomerInput.name r1) (CustomerInput.email r1)
              (CustomerInput.phone r1) s in
  let c3 := new_customer (CustomerInput.name r3) (CustomerInput.email r3)
              (CustomerInput.phone r3) (add_customer s c1) in
  email_exists (CustomerInput.email r1) s = false ->
  phone_rejected (CustomerInput.phone r1) = false ->
  customer_save_fault s c1 = None ->
  email_exists (CustomerInput.email r2) s = true
  \/ CustomerInput.email r2 = CustomerInput.email r1 ->
  email_exists (CustomerInput.email r3) s = false ->
  CustomerInput.email r3 <> CustomerInput.email r1 ->
  phone_rejected (CustomerInput.phone r3) = false ->
  customer_save_fault (add_customer s c1) c3 = None ->
  request s (mutate [r1; r2; r3])
  = (add_customer (add_customer s c1) c3,
     Returns {| created_customers := [c1; c3];
                errors := ["Row 2: Email '" +++ CustomerInput.email r2
                           +++ "' already exists."] |}).
Proof.
  intros c1 c3 T1 P1 F1 D2 T3 N3 P3 F3.
  assert (T2 : email_exists (CustomerInput.email r2) (add_customer s c1) = true).
  { rewrite email_exists_add. destruct D2 as [-> | ->]; [reflexivity |].
    subst c1. simpl. now rewrite String.eqb_refl, orb_true_r. }
  assert (T3' : email_exists (CustomerInput.email r3) (add_customer s c1) = false).
  { rewrite email_exists_add, T3. subst c1. simpl.
    apply String.eqb_neq. congruence. }
  unfold request, mutate, atomic, with_conn. simpl. unfold bind.
  rewrite row_created_eq by (simpl; first [assumption | reflexivity]). simpl.
  rewrite row_duplicate_eq by (simpl; first [assumption | reflexivity]). simpl.
  rewrite row_created_eq by (simpl; first [assumption | reflexivity]). simpl.
  reflexivity.
Qed.

Lemma lefts_rights_length {X Y} (l : list (X + Y)) :
  length (lefts l) + length (rights l) = length l.
Proof.
  induction l as [|[x | y] l IH]; simpl; [reflexivity | lia | lia].
Qed.

(** The outcomes of a batch, one for each row and in the order of the rows. *)
Lemma batch_trace idx c customers c' created errors :
  batch_outcome idx c customers c' created errors ->
  exists outs : list (Customer.t + string),
    length outs = length customers /\
    created = lefts outs /\ errors = rights outs /\
    forall i data, nth_error customers i = Some data ->
      exists o, nth_error outs i = Some o /\ outcome_of (idx + i + 1) data o.
Proof.
  induction 1 as [idx c | idx c data rest c1 customer c2 cs es O _ IH
                 | idx c data rest c1 why c2 cs es O _ IH].
  - exists []. repeat split. intros [|i] data E; discriminate E.
  - destruct IH as (outs & L & -> & -> & Nth).
    exists (inl customer :: outs). simpl. repeat split; [now rewrite L |].
    intros [|i] d E; simpl in E.
    + injection E as <-. exists (inl customer). split; [reflexivity |].
      apply row_created_fields in O as [-> _]. now repeat split.
    + destruct (Nth i d E) as (o & No & Oo). exists o. split; [exact No |].
      now replace (idx + S i + 1) with (S idx + i + 1) by lia.
  - destruct IH as (outs & L & -> & -> & Nth).
    exists (inr ("Row " +++ string_of_nat (S idx) +++ ": " +++ why) :: outs).
    simpl. repeat split; [now rewrite L |].
    intros [|i] d E; simpl in E.
    + injection E as <-. eexists. split; [reflexivity |].
      exists why. now replace (idx + 0 + 1) with (S idx) by lia.
    + destruct (Nth i d E) as (o & No & Oo). exists o. split; [exact No |].
      now replace (idx + S i + 1) with (S idx + i + 1) by lia.
Qed.

(** A row has one outcome. *)
Lemma row_outcome_deterministic c data c1 o1 c2 o2 :
  row_outcome c data c1 o1 -> row_outcome c data c2 o2 -> c1 = c2 /\ o1 = o2.
Proof.
  intros O1 O2.
  inversion O1; subst; inversion O2; subst;
    try congruence; try (split; reflexivity).
  assert (fault = fault0) by congruence. subst. now split.
Qed.

(** So has a batch. *)
Lemma batch_outcome_deterministic idx c customers c1 cs1 es1 :
  batch_outcome idx c customers c1 cs1 es1 ->
  forall c2 cs2 es2,
    batch_outcome idx c customers c2 cs2 es2 ->
    c1 = c2 /\ cs1 = cs2 /\ es1 = es2.
Proof.
  induction 1 as [idx c | idx c data rest c1 customer c1' cs es O _ IH
                 | idx c data rest c1 why c1' cs es O _ IH];
    intros c2 cs2 es2 Bt; inversion Bt; subst.
  - now repeat split.
  - match goal with
    | O' : row_outcome _ _ _ (inl _) |- _ =>
        destruct (row_outcome_deterministic _ _ _ _ _ _ O O') as [-> E];
        injection E as ->
    end.
    match goal with
    | Bt' : batch_outcome _ _ rest _ _ _ |- _ =>
        destruct (IH _ _ _ Bt') as (-> & -> & ->)
    end.
    now repeat split.
  - match goal with
    | O' : row_outcome _ _ _ (inr _) |- _ =>
        destruct (row_outcome_deterministic _ _ _ _ _ _ O O') as [_ E];
        discriminate E
    end.
  - match goal with
    | O' : row_outcome _ _ _ (inl _) |- _ =>
        destruct (row_outcome_deterministic _ _ _ _ _ _ O O') as [_ E];
        discriminate E
    end.
  - match goal with
    | O' : row_outcome _ _ _ (inr _) |- _ =>
        destruct (row_outcome_deterministic _ _ _ _ _ _ O O') as [-> E];
        injection E as ->
    end.
    match goal with
    | Bt' : batch_outcome _ _ rest _ _ _ |- _ =>
        destruct (IH _ _ _ Bt') as (-> & -> & ->)
    end.
    now repeat split.
Qed.

(** The outcome of a batch is the outcome of its first rows followed by the
    outcome of the others, on the connection the first rows left. *)
Lemma batch_outcome_app (l1 : list CustomerInput.t) : forall idx c l2 c' cs es,
  batch_outcome idx c (l1 ++ l2) c' cs es ->
  exists c1 cs1 es1 cs2 es2,
    batch_outcome idx c l1 c1 cs1 es1 /\
    batch_outcome (length l1 + idx) c1 l2 c' cs2 es2 /\
    cs = cs1 ++ cs2 /\ es = es1 ++ es2.
Proof.
  induction l1 as [|data l1 IH]; intros idx c l2 c' cs es Bt.
  - exists c, [], [], cs, es. repeat split; [constructor | exact Bt].
  - simpl in Bt. inversion Bt; subst.
    + match goal with
      | Bt' : batch_outcome _ _ (l1 ++ l2) _ _ _ |- _ =>
          destruct (IH _ _ _ _ _ _ Bt') as (c1' & cs1 & es1 & cs2 & es2 & B1 & B2 & -> & ->)
      end.
      exists c1', (customer :: cs1), es1, cs2, es2. repeat split.
      * eapply batch_created; eassumption.
      * simpl. now rewrite Nat.add_succ_r in B2.
    + match goal with
      | Bt' : batch_outcome _ _ (l1 ++ l2) _ _ _ |- _ =>
          destruct (IH _ _ _ _ _ _ Bt') as (c1' & cs1 & es1 & cs2 & es2 & B1 & B2 & -> & ->)
      end.
      exists c1', cs1, (("Row " +++ string_of_nat (S idx) +++ ": " +++ why) :: es1), cs2, es2.
      repeat split.
      * eapply batch_error; eassumption.
      * simpl. now rewrite Nat.add_succ_r in B2.
Qed.

(** A row between others: the rows before it and the rows after it have
    their outcomes whatever its own, and all of them are returned. *)
Lemma row_among_others (s : Store) (pre : list CustomerInput.t)
    (data : CustomerInput.t) (post : list CustomerInput.t) :
  exists c0 cs0 es0 c1 o c2 cs2 es2 s',
    batch_outcome 0 (begin s) pre c0 cs0 es0 /\
    row_outcome c0 data c1 o /\
    batch_outcome (S (length pre)) c1 post c2 cs2 es2 /\
    request s (mutate (pre ++ data :: post))
    = (s', Returns
             {| created_customers := cs0 ++ lefts [o] ++ cs2;
                errors :=
                  es0 ++ rights [after_error (S (length pre)) o] ++ es2 |}).
Proof.
  destruct (mutate_spec s (pre ++ data :: post)) as (c' & cs & es & Bt & E).
  apply batch_outcome_app in Bt
    as (c0 & cs0 & es0 & cs' & es' & B0 & B1 & -> & ->).
  rewrite Nat.add_0_r in B1.
  inversion B1; subst.
  - do 9 eexists. split; [exact B0 |]. split; [eassumption |].
    split; [eassumption |]. exact E.
  - do 9 eexists. split; [exact B0 |]. split; [eassumption |].
    split; [eassumption |]. exact E.
Qed.

End Bulk.

(** A row the database refuses: the customer created before it is returned,
    and rolled back with the whole batch. *)
Example bulk_rolled_back :
  request empty_store
    (@BulkCreateCustomers.mutate strict_names [row_ada; row_long; row_grace])
  = (empty_store,
     Returns
       {| BulkCreateCustomers.created_customers :=
            [ {| Customer.pk := 1; Customer.name := "Ada";
                 Customer.email := "ada@example.com"; Customer.phone := None |} ];
          BulkCreateCustomers.errors :=
            [ "Row 2: value too long for type character varying(100)";
              "Row 3: " +++ broken_transaction ] |}).
Proof. reflexivity. Qed.

(** C9.  Every row of a batch has exactly one outcome, a created customer
    or a message: the outcomes are as many as the rows and in their order,
    the created customers are the customers among them and the errors the
    messages among them, in that order, the customer of a row has the fields
    of the row and the message of row N starts with "Row N: "; so the two
    lists together are as long as the batch. *)
Theorem bulk_one_outcome_per_row (B : Backend) (s : Store)
    (customers : list CustomerInput.t) :
  exists s' r (outs : list (Customer.t + string)),
    request s (BulkCreateCustomers.mutate customers) = (s', Returns r) /\
    length outs = length customers /\
    BulkCreateCustomers.created_customers r = lefts outs /\
    BulkCreateCustomers.errors r = rights outs /\
    (forall i data, nth_error customers i = Some data ->
       exists o, nth_error outs i = Some o /\ outcome_of (i + 1) data o) /\
    length (BulkCreateCustomers.created_customers r)
    + length (BulkCreateCustomers.errors r) = length customers.
Proof.
  destruct (mutate_spec s customers) as (c' & created & errors & Bt & E).
  destruct (batch_trace _ _ _ _ _ _ Bt) as (outs & L & -> & -> & Nth).
  do 2 eexists. exists outs. split; [exact E |]. simpl.
  repeat split; [exact L | exact Nth |].
  now rewrite lefts_rights_length.
Qed.

Lemma bulk_one_outcome_per_row_witness :
  exists s' r (outs : list (Customer.t + string)),
    request empty_store
      (@BulkCreateCustomers.mutate (vetoing "Grace")
         [row_ada; row_countess; row_grace; row_blank]) = (s', Returns r) /\
    length outs = 4 /\
    BulkCreateCustomers.created_customers r = lefts outs /\
    BulkCreateCustomers.errors r = rights outs /\
    (exists o, nth_error outs 2 = Some o /\ outcome_of 3 row_grace o).
Proof.
  destruct (bulk_one_outcome_per_row (vetoing "Grace") empty_store
              [row_ada; row_countess; row_grace; row_blank])
    as (s' & r & outs & E & L & Cr & Er & Nth & _).
  exists s', r, outs. repeat split; try assumption.
  apply (Nth 2 row_grace). reflexivity.
Defined.



(** ** CreateProduct *)






(** A price below zero. *)
Example create_product_negative_price :
  request empty_store (@CreateProduct.mutate reliable "Pen" (-5 # 1)%Q 3%Z)
  = (empty_store,
     Returns {| CreateProduct.product := None; CreateProduct.success := false;
                CreateProduct.message := "Price must be positive." |}).
Proof. reflexivity. Qed.

(** ** CreateOrder *)

Section Orders.

Context {B : Backend}.

Import CreateOrder.

(** [objects.get] on a connection that takes queries. *)
Lemma objects_get_spec {A} (with_key : Z -> Store -> option A) (pk : string)
    (c : Connection) :
  needs_rollback c = false ->
  objects_get with_key pk c
  = match python_int pk with
    | Some key => (c, Returns (with_key key (db c)))
    | None => (c, Raises (not_a_number pk))
    end.
Proof.
  intros R. unfold objects_get, query.
  destruct (python_int pk); [now rewrite R | reflexivity].
Qed.

(** The loop over the product ids, on a connection that takes queries: it
    leaves the connection as it was, and either it was left by the
    [ValueError] of the first id without a product, which was not a number,
    or it stopped at the first id without a product, a number, or it found
    a product for every id, in order, and added their prices to the total. *)
Lemma for_pid_spec (product_ids : list string) : forall acc total c,
  needs_rollback c = false ->
  (exists pre pid post,
     product_ids = pre ++ pid :: post /\
     Forall (fun p => get_product p (db c) <> None) pre /\
     python_int pid = None /\
     for_pid product_ids acc total c = (c, Raises (not_a_number pid)))
  \/
  exists looped,
    for_pid product_ids acc total c = (c, Returns looped) /\
    match looped with
    | inl failure =>
        exists pre pid post,
          product_ids = pre ++ pid :: post /\
          Forall (fun p => get_product p (db c) <> None) pre /\
          python_int pid <> None /\
          get_product pid (db c) = None /\
          failure = {| order := None; success := false;
                       message := "Invalid product ID: " +++ pid |}
    | inr (products, total_amount) =>
        exists found,
          Forall2 (fun pid p => get_product pid (db c) = Some p) product_ids found /\
          products = acc ++ found /\
          (total_amount == total + sum_prices found)%Q
    end.
Proof.
  induction product_ids as [|pid rest IH]; intros acc total c R.
  - right. exists (inr (acc, total)). split; [reflexivity |].
    exists []. repeat split; [constructor | now rewrite app_nil_r |].
    simpl. ring.
  - cbn [for_pid]. unfold bind. rewrite (objects_get_spec _ pid c R).
    destruct (python_int pid) as [key|] eqn:K.
    2:{ left. exists [], pid, rest. repeat split; [constructor | exact K]. }
    destruct (product_with_key key (db c)) as [product|] eqn:G.
    + assert (G' : get_product pid (db c) = Some product)
        by (unfold get_product; now rewrite K).
      destruct (IH (acc ++ [product]) (total + Product.price product)%Q c R)
        as [(pre & bad & post & -> & Pre & Bad & E) | (looped & E & S)].
      * left. exists (pid :: pre), bad, post. repeat split; try assumption.
        constructor; [congruence | exact Pre].
      * right. exists looped. split; [exact E |].
        destruct looped as [failure | [products total_amount]].
        -- destruct S as (pre & bad & post & -> & Pre & Num & Bad & ->).
           exists (pid :: pre), bad, post. repeat split; try assumption.
           constructor; [congruence | exact Pre].
        -- destruct S as (found & F2 & -> & T).
           exists (product :: found). repeat split.
           ++ now constructor.
           ++ now rewrite <- app_assoc.
           ++ rewrite T. simpl. ring.
    + right. eexists (inl _). split; [reflexivity |].
      exists [], pid, rest. repeat split; [constructor | congruence |].
      unfold get_product. now rewrite K.
Qed.

(** The loop goes on after an id with a product. *)
Lemma for_pid_found (pid : string) (rest : list string) (product : Product.t)
    (acc : list Product.t) (total : Q) (c : Connection) :
  needs_rollback c = false ->
  get_product pid (db c) = Some product ->
  for_pid (pid :: rest) acc total c
  = for_pid rest (acc ++ [product]) (total + Product.price product)%Q c.
Proof.
  intros R G. cbn [for_pid]. unfold bind. rewrite (objects_get_spec _ pid c R).
  unfold get_product in G. destruct (python_int pid) as [key|]; [| discriminate].
  now rewrite G.
Qed.

(** The loop stops at the first id, a number, without a product. *)
Lemma for_pid_stops (pre : list string) (pid : string) (post : list string)
    (key : Z) :
  forall acc total c,
    needs_rollback c = false ->
    Forall (fun p => get_product p (db c) <> None) pre ->
    python_int pid = Some key ->
    product_with_key key (db c) = None ->
    for_pid (pre ++ pid :: post) acc total c
    = (c, Returns (inl {| order := None; success := false;
                          message := "Invalid product ID: " +++ pid |})).
Proof.
  induction pre as [|p pre IH]; intros acc total c R Pre Num Bad.
  - cbn [app for_pid]. unfold bind. rewrite (objects_get_spec _ pid c R), Num.
    now rewrite Bad.
  - inversion Pre as [|? ? P Pre']; subst.
    destruct (get_product p (db c)) as [product|] eqn:G; [| contradiction].
    cbn [app]. rewrite (for_pid_found p _ product acc total c R G).
    now apply IH.
Qed.

(** The loop is left by the [ValueError] of the first id without a product,
    when that id is not a number. *)
Lemma for_pid_raises (pre : list string) (pid : string) (post : list string) :
  forall acc total c,
    needs_rollback c = false ->
    Forall (fun p => get_product p (db c) <> None) pre ->
    python_int pid = None ->
    for_pid (pre ++ pid :: post) acc total c = (c, Raises (not_a_number pid)).
Proof.
  induction pre as [|p pre IH]; intros acc total c R Pre Num.
  - cbn [app for_pid]. unfold bind. now rewrite (objects_get_spec _ pid c R), Num.
  - inversion Pre as [|? ? P Pre']; subst.
    destruct (get_product p (db c)) as [product|] eqn:G; [| contradiction].
    cbn [app]. rewrite (for_pid_found p _ product acc total c R G).
    now apply IH.
Qed.

End Orders.

(** The customer lookup of [CreateOrder], by what the id denotes. *)
Lemma create_order_customer (B : Backend) (now : Z) (s : Store)
    (customer_id : string) (product_ids : list string) (order_date : option Z) :
  CreateOrder.mutate now customer_id product_ids order_date (autocommit s)
  = match python_int customer_id with
    | None => (autocommit s, Raises (not_a_number customer_id))
    | Some key =>
        match customer_with_key key s with
        | None =>
            (autocommit s,
             Returns {| CreateOrder.order := None; CreateOrder.success := false;
                        CreateOrder.message := "Invalid customer ID." |})
        | Some customer =>
            match product_ids with
            | [] =>
                (autocommit s,
                 Returns {| CreateOrder.order := None; CreateOrder.success := false;
                            CreateOrder.message :=
                              "At least one product must be selected." |})
            | _ :: _ =>
                (looped <- CreateOrder.for_pid product_ids [] 0%Q ;;
                 match looped with
                 | inl failure => ret failure
                 | inr (products, total_amount) =>
                     o <- save_order customer
                            (match order_date with Some d => d | None => now end)
                            total_amount ;;
                     o' <- set_products o products ;;
                     ret {| CreateOrder.order := Some o'; CreateOrder.success := true;
                            CreateOrder.message := "Order created successfully." |}
                 end) (autocommit s)
            end
        end
    end.
Proof.
  unfold CreateOrder.mutate. unfold bind at 1.
  rewrite (objects_get_spec _ customer_id (autocommit s) eq_refl).
  destruct (python_int customer_id) as [key|]; [| reflexivity].
  simpl. destruct (customer_with_key key s); [| reflexivity].
  now destruct product_ids.
Qed.

(** C2.  [CreateOrder] does not answer every id that resolves to nothing
    with its failure messages: a customer id that is not a number makes the
    call raise the [ValueError] of the lookup instead of failing with
    "Invalid customer ID.", whatever the product ids; and with a known
    customer, a product id that is not a number, the first one without a
    product, makes the call raise instead of failing with "Invalid product
    ID: " followed by the id.  Nothing is stored either way. *)
Theorem create_order_id_not_a_number (B : Backend) (now : Z) (s : Store)
    (customer_id : string) (order_date : option Z) :
  (python_int customer_id = None ->
   get_customer customer_id s = None /\
   forall product_ids,
     request s (CreateOrder.mutate now customer_id product_ids order_date)
     = (s, Raises (not_a_number customer_id)))
  /\
  (get_customer customer_id s <> None ->
   forall pre pid post,
     Forall (fun p => get_product p s <> None) pre ->
     python_int pid = None ->
     get_product pid s = None /\
     request s (CreateOrder.mutate now customer_id (pre ++ pid :: post) order_date)
     = (s, Raises (not_a_number pid))).
Proof.
  unfold request. split.
  - intros Num. split; [unfold get_customer; now rewrite Num |].
    intros product_ids. now rewrite create_order_customer, Num.
  - intros Known pre pid post Pre Num.
    split; [unfold get_product; now rewrite Num |].
    rewrite create_order_customer. unfold get_customer in Known.
    destruct (python_int customer_id) as [key|]; [| contradiction].
    destruct (customer_with_key key s) as [customer|]; [| contradiction].
    destruct (pre ++ pid :: post) as [|x xs] eqn:E.
    { symmetry in E. now apply app_cons_not_nil in E. }
    rewrite <- E. unfold bind.
    now rewrite (for_pid_raises pre pid post [] 0%Q (autocommit s) eq_refl Pre Num).
Qed.

Lemma create_order_id_not_a_number_witness :
  (get_customer "abc" shop = None /\
   request shop (@CreateOrder.mutate reliable 0%Z "abc" ["1"; "2"] None)
   = (shop, Raises "Field 'id' expected a number but got 'abc'."))
  /\
  (get_product "x" shop = None /\
   request shop (@CreateOrder.mutate reliable 0%Z "1" (["1"] ++ "x" :: ["2"]) None)
   = (shop, Raises "Field 'id' expected a number but got 'x'.")).
Proof.
  split.
  - destruct (create_order_id_not_a_number reliable 0%Z shop "abc" None)
      as [Customer _].
    destruct (Customer eq_refl) as [Unknown Raised].
    split; [exact Unknown | exact (Raised ["1"; "2"])].
  - destruct (create_order_id_not_a_number reliable 0%Z shop "1" None)
      as [_ Product].
    apply Product.
    + discriminate.
    + constructor; [discriminate | constructor].
    + reflexivity.
Defined.

(** An id with a zero in front denotes the key without it. *)
Example create_order_padded_id :
  get_customer "01" shop = Some ada /\
  exists s' o,
    request shop (@CreateOrder.mutate reliable 0%Z "01" [" 2"] None)
    = (s', Returns {| CreateOrder.order := Some o; CreateOrder.success := true;
                      CreateOrder.message := "Order created successfully." |}) /\
    Order.customer o = 1%Z /\ Order.products o = [2]%Z.
Proof. split; [reflexivity |]. do 2 eexists. split; [reflexivity |]. now split. Qed.

(** With ids that are numbers [CreateOrder] checks in a fixed order and
    stops at the first check that fails, storing nothing: whatever the
    product ids, a customer id whose key no customer has fails with "Invalid
    customer ID."; a known customer and no product id fail with "At least
    one product must be selected."; a known customer and product ids of
    which [pid] is the first without a product fail with "Invalid product
    ID: " followed by [pid], whatever comes after it; and every failure
    result leaves the store as it was and carries no order. *)
Theorem create_order_checks_numbers (B : Backend) (now : Z) (s : Store)
    (customer_id : string) (order_date : option Z) :
  (forall key,
     python_int customer_id = Some key -> customer_with_key key s = None ->
     forall product_ids,
       request s (CreateOrder.mutate now customer_id product_ids order_date)
       = (s, Returns {| CreateOrder.order := None; CreateOrder.success := false;
                        CreateOrder.message := "Invalid customer ID." |}))
  /\
  (get_customer customer_id s <> None ->
   request s (CreateOrder.mutate now customer_id [] order_date)
   = (s, Returns {| CreateOrder.order := None; CreateOrder.success := false;
                    CreateOrder.message := "At least one product must be selected." |}))
  /\
  (get_customer customer_id s <> None ->
   forall pre pid post key,
     Forall (fun p => get_product p s <> None) pre ->
     python_int pid = Some key -> product_with_key key s = None ->
     request s (CreateOrder.mutate now customer_id (pre ++ pid :: post) order_date)
     = (s, Returns {| CreateOrder.order := None; CreateOrder.success := false;
                      CreateOrder.message := "Invalid product ID: " +++ pid |}))
  /\
  (forall product_ids s' r,
     request s (CreateOrder.mutate now customer_id product_ids order_date)
     = (s', Returns r) ->
     CreateOrder.success r = false ->
     s' = s /\ CreateOrder.order r = None).
Proof.
  unfold request, get_customer.
  split; [| split; [| split]].
  - intros key Num Unknown product_ids.
    now rewrite create_order_customer, Num, Unknown.
  - intros Known. rewrite create_order_customer.
    destruct (python_int customer_id) as [key|]; [| contradiction].
    destruct (customer_with_key key s); [reflexivity | contradiction].
  - intros Known pre pid post key Pre Num Bad.
    rewrite create_order_customer.
    destruct (python_int customer_id) as [k|]; [| contradiction].
    destruct (customer_with_key k s) as [customer|]; [| contradiction].
    destruct (pre ++ pid :: post) as [|x xs] eqn:E.
    { symmetry in E. now apply app_cons_not_nil in E. }
    rewrite <- E. unfold bind.
    now rewrite (for_pid_stops pre pid post key [] 0%Q (autocommit s) eq_refl Pre Num Bad).
  - intros product_ids s' r. rewrite create_order_customer.
    destruct (python_int customer_id) as [key|]; [| discriminate].
    destruct (customer_with_key key s) as [customer|].
    2:{ intros E F. injection E as <- <-. now split. }
    destruct product_ids as [|pid rest].
    { intros E F. injection E as <- <-. now split. }
    unfold bind.
    destruct (for_pid_spec (pid :: rest) [] 0%Q (autocommit s) eq_refl)
      as [(pre & bad & post & _ & _ & _ & ->) | (looped & -> & S)];
      [discriminate |].
    destruct looped as [failure | [products total_amount]].
    + destruct S as (pre & bad & post & _ & _ & _ & _ & ->).
      intros E F. injection E as <- <-. now split.
    + unfold save_order, write, set_products, ret. simpl.
      destruct (order_save_fault s (new_order customer _ total_amount s)) as [[msg|msg]|];
        simpl; intros E F; try discriminate E.
      injection E as <- <-. discriminate F.
Qed.

Lemma create_order_checks_numbers_witness :
  (request shop (@CreateOrder.mutate reliable 0%Z "9" ["1"; "2"] None)
   = (shop, Returns {| CreateOrder.order := None; CreateOrder.success := false;
                       CreateOrder.message := "Invalid customer ID." |}))
  /\
  (request shop (@CreateOrder.mutate reliable 0%Z "1" [] None)
   = (shop, Returns {| CreateOrder.order := None; CreateOrder.success := false;
                       CreateOrder.message := "At least one product must be selected." |}))
  /\
  (request shop (@CreateOrder.mutate reliable 0%Z "1" (["1"] ++ "7" :: ["2"; "8"]) None)
   = (shop, Returns {| CreateOrder.order := None; CreateOrder.success := false;
                       CreateOrder.message := "Invalid product ID: 7" |}))
  /\
  (fst (request shop (@CreateOrder.mutate reliable 0%Z "1" ["7"] None)) = shop).
Proof.
  split; [| split; [| split]].
  - apply (create_order_checks_numbers reliable 0%Z shop "9" None) with (key := 9%Z);
      reflexivity.
  - apply (create_order_checks_numbers reliable 0%Z shop "1" None). discriminate.
  - apply (create_order_checks_numbers reliable 0%Z shop "1" None) with (key := 7%Z).
    + discriminate.
    + constructor; [discriminate | constructor].
    + reflexivity.
    + reflexivity.
  - edestruct (proj2 (proj2 (proj2
                 (create_order_checks_numbers reliable 0%Z shop "1" None))) ["7"])
      as [Same _].
    + reflexivity.
    + reflexivity.
    + exact (eq_sym Same).
Defined.

(** Creating a product leaves the orders alone. *)
Lemma create_product_keeps_orders (B : Backend) (s : Store) (name : string)
    (price : Q) (stock : Z) :
  order_table (fst (request s (CreateProduct.mutate name price stock))) = order_table s.
Proof.
  unfold request, CreateProduct.mutate.
  destruct (Qle_bool price 0); [reflexivity |].
  destruct (stock <? 0)%Z; [reflexivity |].
  unfold bind, save_product, write. simpl.
  now destruct (product_save_fault s (new_product name price stock s)) as [[msg|msg]|].
Qed.

(** C3.  After a [CreateOrder] call that succeeds, the order of the result
    is in the store, every product id resolved to a product of the store the
    call started on, and the total of the order is the sum of the prices of
    those products; the total is a field of the stored order, and creating
    products afterwards leaves it as it is. *)
Theorem create_order_total (B : Backend) (now : Z) (s : Store) (customer_id : string)
    (product_ids : list string) (order_date : option Z)
    (s' : Store) (r : CreateOrder.t) :
  request s (CreateOrder.mutate now customer_id product_ids order_date)
  = (s', Returns r) ->
  CreateOrder.success r = true ->
  exists o resolved,
    CreateOrder.order r = Some o /\
    In o (order_table s') /\
    Forall2 (fun pid p => get_product pid s = Some p) product_ids resolved /\
    (Order.total_amount o == sum_prices resolved)%Q /\
    (forall name price stock,
       In o (order_table (fst (request s' (CreateProduct.mutate name price stock))))).
Proof.
  unfold request at 1. rewrite create_order_customer.
  destruct (python_int customer_id) as [key|]; [| discriminate].
  destruct (customer_with_key key s) as [customer|].
  2:{ intros E F. injection E as <- <-. discriminate F. }
  destruct product_ids as [|pid rest].
  { intros E F. injection E as <- <-. discriminate F. }
  unfold bind.
  destruct (for_pid_spec (pid :: rest) [] 0%Q (autocommit s) eq_refl)
    as [(pre & bad & post & _ & _ & _ & ->) | (looped & -> & S)];
    [discriminate |].
  destruct looped as [failure | [products total_amount]].
  { destruct S as (pre & bad & post & _ & _ & _ & _ & ->).
    intros E F. injection E as <- <-. discriminate F. }
  destruct S as (found & F2 & -> & T).
  unfold save_order, write, set_products, ret. simpl.
  destruct (order_save_fault s (new_order customer _ total_amount s)) as [[msg|msg]|];
    simpl; intros E F; try discriminate E.
  injection E as <- <-. simpl.
  eexists. exists found. split; [reflexivity |].
  assert (I : forall l, In (with_products
                 (new_order customer match order_date with Some d => d | None => now end
                    total_amount s)
                 (nodup Z.eq_dec (map Product.pk found)))
              (map (fun o => if (Order.pk o =? next_key (map Order.pk (order_table s)))%Z
                             then with_products
                                    (new_order customer
                                       match order_date with Some d => d | None => now end
                                       total_amount s)
                                    (nodup Z.eq_dec (map Product.pk found))
                             else o)
                 (l ++ [new_order customer
                          match order_date with Some d => d | None => now end
                          total_amount s]))).
  { intros l. apply in_map_iff. eexists. split; [| apply in_or_app; right; now left].
    simpl. now rewrite Z.eqb_refl. }
  repeat split.
  - apply I.
  - exact F2.
  - rewrite Qplus_0_l in T. exact T.
  - intros name price stock. rewrite create_product_keeps_orders. apply I.
Qed.

Lemma create_order_total_witness :
  exists o resolved,
    In o (order_table
            (fst (request shop (@CreateOrder.mutate reliable 0%Z "1" ["1"; "2"; "1"] None)))) /\
    Forall2 (fun pid p => get_product pid shop = Some p) ["1"; "2"; "1"] resolved /\
    (Order.total_amount o == sum_prices resolved)%Q /\
    (Order.total_amount o == 8 # 1)%Q.
Proof.
  edestruct (create_order_total reliable 0%Z shop "1" ["1"; "2"; "1"] None)
    as (o & resolved & Ro & Io & F2 & T & _).
  - reflexivity.
  - reflexivity.
  - exists o, resolved. repeat split; try assumption.
    injection Ro as <-. reflexivity.
Defined.

(** An id given twice: its price counts twice in the total, and the relation
    of the order holds its product once. *)
Example create_order_repeated_id :
  match request shop (@CreateOrder.mutate reliable 0%Z "1" ["1"; "2"; "1"] None) with
  | (_, Returns {| CreateOrder.order := Some o |}) =>
      Order.products o = [2; 1]%Z /\ (Order.total_amount o == 8 # 1)%Q
  | _ => False
  end.
Proof. split; reflexivity. Qed.

(** ** Further properties of the mutations *)

(** *** Customers *)

Lemma email_exists_false_iff (email : string) (s : Store) :
  email_exists email s = false <-> ~ In email (map Customer.email (customer_table s)).
Proof.
  rewrite <- not_true_iff_false, email_exists_iff, in_map_iff.
  split; intros N (c & X & Y); apply N; exists c; now split.
Qed.

Lemma unique_emails_add (s : Store) (c : Customer.t) :
  unique_emails s -> email_exists (Customer.email c) s = false ->
  unique_emails (add_customer s c).
Proof.
  unfold unique_emails. intros U F. simpl. rewrite map_app. simpl.
  apply email_exists_false_iff in F.
  apply NoDup_app; [exact U | repeat constructor; intros [] | ].
  intros x I [<- | []]. contradiction.
Qed.

(** What a [CreateCustomer] call does to the store: nothing, or it adds the
    customer of its arguments, whose email was not there. *)
Lemma create_customer_store (B : Backend) s name email phone :
  (request s (CreateCustomer.mutate name email phone)
   = (s, snd (request s (CreateCustomer.mutate name email phone))) /\
   created_by (snd (request s (CreateCustomer.mutate name email phone))) = [])
  \/ (email_exists email s = false /\ phone_rejected phone = false /\
      request s (CreateCustomer.mutate name email phone)
      = (add_customer s (new_customer name email phone s),
         Returns {| CreateCustomer.customer := Some (new_customer name email phone s);
                    CreateCustomer.success := true;
                    CreateCustomer.message := "Customer created successfully." |})).
Proof.
  destruct (email_exists email s) eqn:T.
  { left. now rewrite create_customer_taken. }
  destruct (phone_rejected phone) eqn:P.
  { left. unfold request, CreateCustomer.mutate, bind, query. simpl.
    now rewrite T, P. }
  destruct (customer_save_fault s (new_customer name email phone s)) as [fault|] eqn:F.
  - left. now rewrite (create_customer_refused B s name email phone fault).
  - right. repeat split. now apply create_customer_saved.
Qed.

(** X1.  [CreateCustomer] keeps the emails of the store distinct: whatever
    its arguments and whatever the store answers, a store without two
    customers of one email is such a store after the call. *)
Theorem create_customer_keeps_emails_unique (B : Backend) (s : Store)
    (name email : string) (phone : option string) :
  unique_emails s ->
  unique_emails (fst (request s (CreateCustomer.mutate name email phone))).
Proof.
  intros U.
  destruct (create_customer_store B s name email phone) as [[E _] | (T & _ & E)];
    rewrite E; simpl; [exact U |].
  now apply unique_emails_add.
Qed.

Lemma create_customer_keeps_emails_unique_witness :
  unique_emails
    (fst (request store_with_ada
            (@CreateCustomer.mutate reliable "Grace" "grace@example.com" None))).
Proof.
  apply (create_customer_keeps_emails_unique reliable store_with_ada).
  unfold unique_emails. simpl. repeat constructor. intros [].
Defined.

(** X2.  A customer once created, its email is taken: after a
    [CreateCustomer] call that succeeded, the stored customer carries the
    name, email and phone of the call, and any later call with that email,
    whatever its name and phone, fails with "Email already exists." and
    leaves the store as it is. *)
Theorem create_customer_twice (B : Backend) (s : Store) (name email : string)
    (phone : option string) (s' : Store) (r : CreateCustomer.t) :
  request s (CreateCustomer.mutate name email phone) = (s', Returns r) ->
  CreateCustomer.success r = true ->
  (exists c, CreateCustomer.customer r = Some c /\
             In c (customer_table s') /\
             Customer.name c = name /\ Customer.email c = email /\
             Customer.phone c = phone) /\
  (forall (B' : Backend) name' phone',
     request s' (@CreateCustomer.mutate B' name' email phone')
     = (s', Returns {| CreateCustomer.customer := None;
                       CreateCustomer.success := false;
                       CreateCustomer.message := "Email already exists." |})).
Proof.
  intros E S.
  destruct (create_customer_store B s name email phone) as [[E' C] | (T & _ & E')].
  - exfalso. rewrite E in C. simpl in C.
    rewrite E in E'. unfold request, CreateCustomer.mutate, bind, query in E. simpl in E.
    destruct (email_exists email s).
    { injection E as <- <-. discriminate S. }
    destruct (phone_rejected phone).
    { injection E as <- <-. discriminate S. }
    unfold save_customer, write in E. simpl in E.
    destruct (customer_save_fault s (new_customer name email phone s)) as [[m|m]|];
      simpl in E; try discriminate E.
    injection E as <- <-. discriminate C.
  - rewrite E in E'. injection E' as -> ->. split.
    + eexists. split; [reflexivity |]. simpl. split; [| now repeat split].
      apply in_or_app. right. now left.
    + intros B' name' phone'. apply create_customer_taken.
      rewrite email_exists_add. simpl. now rewrite String.eqb_refl, orb_true_r.
Qed.

Lemma create_customer_twice_witness :
  request (add_customer empty_store ada)
    (@CreateCustomer.mutate locked "Countess" "ada@example.com" (Some "bad"))
  = (add_customer empty_store ada,
     Returns {| CreateCustomer.customer := None; CreateCustomer.success := false;
                CreateCustomer.message := "Email already exists." |}).
Proof.
  apply (create_customer_twice reliable empty_store "Ada" "ada@example.com" None
           (add_customer empty_store ada)
           {| CreateCustomer.customer := Some ada; CreateCustomer.success := true;
              CreateCustomer.message := "Customer created successfully." |}).
  - reflexivity.
  - reflexivity.
Defined.

Lemma create_customer_rejected (B : Backend) s name email phone :
  email_exists email s = false ->
  phone_rejected phone = true ->
  request s (CreateCustomer.mutate name email phone)
  = (s, Returns {| CreateCustomer.customer := None; CreateCustomer.success := false;
                   CreateCustomer.message := "Invalid phone format." |}).
Proof.
  intros T P. unfold request, CreateCustomer.mutate, bind, query. simpl.
  now rewrite T, P.
Qed.

(** X3.  A phone of ASCII characters that is given, not empty and neither
    a well-formed number nor one followed by a newline is refused: with an
    email that is not in the store, [CreateCustomer] fails with "Invalid
    phone format." and stores nothing.  (Outside ASCII the pattern accepts
    more: [\d] matches the decimal digits of every script.) *)
Theorem create_customer_bad_phone (B : Backend) (s : Store) (name email p : string) :
  email_exists email s = false ->
  only_ascii p = true ->
  p <> "" ->
  ~ well_formed_phone p ->
  (forall q, p = q +++ newline -> ~ well_formed_phone q) ->
  request s (CreateCustomer.mutate name email (Some p))
  = (s, Returns {| CreateCustomer.customer := None; CreateCustomer.success := false;
                   CreateCustomer.message := "Invalid phone format." |}).
Proof.
  intros T _ N W Wn.
  assert (P : phone_rejected (Some p) = true).
  { destruct (phone_rejected (Some p)) eqn:P; [reflexivity | exfalso].
    apply (phone_accepted_iff p N) in P as [Wp | (q & -> & Wq)];
      [exact (W Wp) | exact (Wn q eq_refl Wq)]. }
  now apply create_customer_rejected.
Qed.

Lemma create_customer_bad_phone_witness :
  request store_with_ada
    (@CreateCustomer.mutate reliable "Grace" "grace@example.com" (Some "12345"))
  = (store_with_ada,
     Returns {| CreateCustomer.customer := None; CreateCustomer.success := false;
                CreateCustomer.message := "Invalid phone format." |}).
Proof.
  apply (create_customer_bad_phone reliable store_with_ada "Grace" "grace@example.com").
  - reflexivity.
  - reflexivity.
  - discriminate.
  - intros [(ds & E & _) | (a & b & c & E & (_ & La) & _)].
    + discriminate E.
    + destruct a as [|a1 [|a2 [|a3 [|a4 a]]]]; try discriminate La.
      discriminate E.
  - intros q E _.
    destruct q as [|q1 [|q2 [|q3 [|q4 [|q5 q]]]]]; try discriminate E.
    destruct q; discriminate E.
Defined.

(** *** The two shapes of a phone *)

Lemma first_digit (x : ascii) (a : string) :
  all_digits (String x a) = true -> x <> "+"%char /\ x <> "-"%char.
Proof.
  simpl. intros D. apply andb_true_iff in D as [D _].
  split; intros ->; discriminate D.
Qed.

(** Digits up to a hyphen: there is one way to read them. *)
Lemma digits_then_hyphen (a : string) : forall a' x y,
  all_digits a = true -> all_digits a' = true ->
  a +++ String "-" x = a' +++ String "-" y -> a = a' /\ x = y.
Proof.
  induction a as [|d a IH]; intros [|d' a'] x y A A' E; simpl in E.
  - injection E as <-. now split.
  - injection E as <- _. now apply first_digit in A' as [_ N].
  - injection E as -> _. now apply first_digit in A as [_ N].
  - injection E as <- E. simpl in A, A'.
    apply andb_true_iff in A as [_ A]. apply andb_true_iff in A' as [_ A'].
    destruct (IH a' x y A A' E) as [-> ->]. now split.
Qed.

Lemma newline_not_digits (c : string) : all_digits (c +++ newline) = false.
Proof. rewrite all_digits_append. simpl. now rewrite andb_false_r. Qed.

(** X4.  The bounds of the first shape: a plus sign followed by digits is
    accepted as a phone exactly when the digits are 10 to 15. *)
Theorem plus_phone_bounds (ds : string) :
  all_digits ds = true ->
  phone_rejected (Some (String "+" ds)) = false <-> 10 <= String.length ds <= 15.
Proof.
  intros D. rewrite phone_accepted_iff by discriminate. split.
  - intros [[(ds' & E & _ & L) | (a & b & c & E & (Aa & La) & _)]
           | (q & E & [(ds' & -> & Dq & _) | (a & b & c & -> & (Aa & La) & _)])].
    + now injection E as <-.
    + destruct a as [|x a]; [discriminate La |].
      injection E as <- _. now apply first_digit in Aa as [N _].
    + simpl in E. injection E as ->. now rewrite newline_not_digits in D.
    + destruct a as [|x a]; [discriminate La |].
      simpl in E. injection E as <- _. now apply first_digit in Aa as [N _].
  - intros L. left. left. now exists ds.
Qed.

Lemma plus_phone_bounds_witness :
  phone_rejected (Some "+123456789012345") = false /\
  phone_rejected (Some "+1234567890123456") = true.
Proof.
  split.
  - apply (plus_phone_bounds "123456789012345"); [reflexivity | simpl; lia].
  - destruct (phone_rejected (Some "+1234567890123456")) eqn:P; [reflexivity |].
    apply (plus_phone_bounds "1234567890123456") in P; [simpl in P; lia | reflexivity].
Defined.

(** X5.  The bounds of the second shape: three runs of digits joined by
    hyphens are accepted as a phone exactly when they are 3, 3 and 4 digits
    long. *)
Theorem hyphen_phone_bounds (a b c : string) :
  all_digits a = true -> all_digits b = true -> all_digits c = true ->
  phone_rejected (Some (a +++ String "-" (b +++ String "-" c))) = false <->
  String.length a = 3 /\ String.length b = 3 /\ String.length c = 4.
Proof.
  intros Da Db Dc.
  rewrite phone_accepted_iff by (destruct a; discriminate). split.
  - intros [[(ds' & E & _) | (a' & b' & c' & E & (Aa & La) & (Ab & Lb) & (Ac & Lc))]
           | (q & E & [(ds' & -> & _) | (a' & b' & c' & -> & (Aa & La) & (Ab & Lb) & (Ac & Lc))])].
    + destruct a as [|x a]; [discriminate E |].
      injection E as -> _. now apply first_digit in Da as [N _].
    + apply digits_then_hyphen in E as [-> E]; try assumption.
      apply digits_then_hyphen in E as [-> ->]; try assumption.
      now repeat split.
    + destruct a as [|x a]; [discriminate E |].
      simpl in E. injection E as -> _. now apply first_digit in Da as [N _].
    + rewrite append_assoc in E. simpl in E. rewrite append_assoc in E. simpl in E.
      apply digits_then_hyphen in E as [-> E]; try assumption.
      apply digits_then_hyphen in E as [-> ->]; try assumption.
      now rewrite newline_not_digits in Dc.
  - intros (La & Lb & Lc). left. right. exists a, b, c. now repeat split.
Qed.

Lemma hyphen_phone_bounds_witness :
  phone_rejected (Some "123-456-7890") = false /\
  phone_rejected (Some "1234-56-7890") = true.
Proof.
  split.
  - apply (hyphen_phone_bounds "123" "456" "7890"); try reflexivity.
    now repeat split.
  - destruct (phone_rejected (Some "1234-56-7890")) eqn:P; [reflexivity |].
    apply (hyphen_phone_bounds "1234" "56" "7890") in P as [L _];
      [discriminate L | reflexivity | reflexivity | reflexivity].
Defined.

(** *** Batches *)

Section MoreBulk.

Context {B : Backend}.

Import BulkCreateCustomers.

Lemma batch_unique_emails idx c customers c' created errors :
  batch_outcome idx c customers c' created errors ->
  unique_emails (db c) -> unique_emails (db c').
Proof.
  induction 1 as [idx c | idx c data rest c1 customer c2 cs es O _ IH
                 | idx c data rest c1 why c2 cs es O _ IH]; intros U.
  - exact U.
  - apply IH. inversion O; subst. simpl. now apply unique_emails_add.
  - apply IH. now rewrite (row_error_db _ _ _ _ O).
Qed.

Lemma email_exists_with_customers (email : string) (s : Store) (cs : list Customer.t) :
  email_exists email s = true -> email_exists email (with_customers s cs) = true.
Proof.
  unfold email_exists, with_customers. simpl. rewrite existsb_app.
  intros ->. reflexivity.
Qed.

(** The rows of a batch on a connection that takes queries, none of them
    refused by the store: what the connection holds afterwards. *)
Lemma batch_settled idx c customers c' created errors :
  (forall s row, customer_save_fault s row = None) ->
  batch_outcome idx c customers c' created errors ->
  needs_rollback c = false ->
  needs_rollback c' = false /\
  forall data, In data customers ->
    email_exists (CustomerInput.email data) (db c') = true
    \/ phone_rejected (CustomerInput.phone data) = true.
Proof.
  intros NoFault.
  induction 1 as [idx c | idx c data rest c1 customer c2 cs es O Bt IH
                 | idx c data rest c1 why c2 cs es O Bt IH]; intros R.
  - split; [exact R | intros data []].
  - assert (R1 : needs_rollback c1 = false) by (inversion O; subst; exact R).
    destruct (IH R1) as [R2 Rest]. split; [exact R2 |].
    intros d [<- | I]; [| now apply Rest].
    left. rewrite (batch_db _ _ _ _ _ _ Bt). apply email_exists_with_customers.
    inversion O; subst. simpl. rewrite email_exists_add. simpl.
    now rewrite String.eqb_refl, orb_true_r.
  - assert (R1 : needs_rollback c1 = false /\ db c1 = db c /\
                 (email_exists (CustomerInput.email data) (db c) = true
                  \/ phone_rejected (CustomerInput.phone data) = true)).
    { inversion O; subst; try congruence.
      - now repeat split; [| left].
      - now repeat split; [| right]. }
    destruct R1 as (R1 & D & Here). destruct (IH R1) as [R2 Rest].
    split; [exact R2 |].
    intros d [<- | I]; [| now apply Rest].
    destruct Here as [T | P]; [left | now right].
    rewrite (batch_db _ _ _ _ _ _ Bt), D. now apply email_exists_with_customers.
Qed.

(** Rows that all have a stored email or a bad phone: none is created, and
    the store is not asked to write. *)
Lemma batch_nothing_new idx c customers c' created errors :
  batch_outcome idx c customers c' created errors ->
  needs_rollback c = false ->
  (forall data, In data customers ->
     email_exists (CustomerInput.email data) (db c) = true
     \/ phone_rejected (CustomerInput.phone data) = true) ->
  c' = c /\ created = [] /\ length errors = length customers.
Proof.
  induction 1 as [idx c | idx c data rest c1 customer c2 cs es O Bt IH
                 | idx c data rest c1 why c2 cs es O Bt IH]; intros R Known.
  - now repeat split.
  - exfalso. destruct (Known data (or_introl eq_refl)); inversion O; subst; congruence.
  - assert (E : c1 = c).
    { destruct (Known data (or_introl eq_refl)); inversion O; subst; congruence. }
    subst c1. destruct (IH R) as (-> & -> & L).
    + intros d I. apply Known. now right.
    + repeat split. simpl. now rewrite L.
Qed.

(** Rows on a connection whose transaction is marked: none is created, and
    each leaves the message of the broken transaction. *)
Lemma batch_broken idx c customers c' created errors :
  batch_outcome idx c customers c' created errors ->
  needs_rollback c = true ->
  c' = c /\ created = [] /\ length errors = length customers /\
  Forall (fun e => exists n, e = "Row " +++ string_of_nat n +++ ": " +++ broken_transaction)
    errors.
Proof.
  induction 1 as [idx c | idx c data rest c1 customer c2 cs es O Bt IH
                 | idx c data rest c1 why c2 cs es O Bt IH]; intros R.
  - now repeat split.
  - exfalso. inversion O; subst; congruence.
  - assert (E : c1 = c /\ why = broken_transaction)
      by (inversion O; subst; try congruence; now split).
    destruct E as [-> ->]. destruct (IH R) as (-> & -> & L & F).
    repeat split; [simpl; now rewrite L |].
    constructor; [now exists (S idx) | exact F].
Qed.

(** Rows that pass the checks, with emails new to the store and distinct,
    on a store that accepts them: all are created. *)
Lemma batch_all_created idx c customers c' created errors :
  (forall s row, customer_save_fault s row = None) ->
  batch_outcome idx c customers c' created errors ->
  needs_rollback c = false ->
  (forall data, In data customers ->
     phone_rejected (CustomerInput.phone data) = false) ->
  (forall data, In data customers ->
     email_exists (CustomerInput.email data) (db c) = false) ->
  NoDup (map CustomerInput.email customers) ->
  needs_rollback c' = false /\ errors = [] /\
  map Customer.name created = map CustomerInput.name customers /\
  map Customer.email created = map CustomerInput.email customers /\
  map Customer.phone created = map CustomerInput.phone customers.
Proof.
  intros NoFault.
  induction 1 as [idx c | idx c data rest c1 customer c2 cs es O Bt IH
                 | idx c data rest c1 why c2 cs es O Bt IH];
    intros R Phones Fresh Distinct.
  - now repeat split.
  - inversion Distinct as [| e es' NotIn Distinct']; subst.
    inversion O; subst.
    destruct IH as (R2 & -> & Ns & Es & Ps); try assumption.
    + intros d I. apply Phones. now right.
    + intros d I. simpl. rewrite email_exists_add. simpl.
      rewrite (Fresh d (or_intror I)). simpl. apply String.eqb_neq.
      intros E. apply NotIn. rewrite E. now apply in_map.
    + repeat split; simpl; [exact R2 | now rewrite Ns | now rewrite Es | now rewrite Ps].
  - exfalso. pose proof (Phones data (or_introl eq_refl)) as P.
    pose proof (Fresh data (or_introl eq_refl)) as T.
    inversion O; subst; congruence.
Qed.

End MoreBulk.

(** X6.  [BulkCreateCustomers] keeps the emails of the store distinct, also
    against the rows of its own batch: from a store without two customers of
    one email, the store after the call is such a store, and the customers
    the call reports as created have emails that differ from each other and
    from every email stored before. *)
Theorem bulk_keeps_emails_unique (B : Backend) (s : Store)
    (customers : list CustomerInput.t) :
  unique_emails s ->
  exists s' r,
    request s (BulkCreateCustomers.mutate customers) = (s', Returns r) /\
    unique_emails s' /\
    NoDup (map Customer.email
             (customer_table s ++ BulkCreateCustomers.created_customers r)).
Proof.
  intros U.
  destruct (mutate_spec s customers) as (c' & created & errors & Bt & E).
  pose proof (batch_unique_emails _ _ _ _ _ _ Bt U) as U'.
  rewrite (batch_db _ _ _ _ _ _ Bt) in U'. simpl in U'.
  do 2 eexists. split; [exact E |]. split; [| exact U'].
  now destruct (needs_rollback c').
Qed.

Lemma bulk_keeps_emails_unique_witness :
  exists s' r,
    request store_with_ada
      (@BulkCreateCustomers.mutate reliable [row_grace; row_countess; row_grace])
    = (s', Returns r) /\
    unique_emails s' /\
    NoDup (map Customer.email
             (customer_table store_with_ada ++ BulkCreateCustomers.created_customers r)).
Proof.
  apply (bulk_keeps_emails_unique reliable store_with_ada).
  unfold unique_emails. simpl. repeat constructor. intros [].
Defined.

(** X7.  A batch of one row stores what [CreateCustomer] stores for the
    same name, email and phone: the store after either call is the same, and
    the batch reports the customer as created exactly when [CreateCustomer]
    returns it; otherwise the batch reports one error, also where
    [CreateCustomer] raises. *)
Theorem bulk_of_one_row (B : Backend) (s : Store) (name email : string)
    (phone : option string) :
  exists r,
    request s (BulkCreateCustomers.mutate [as_row name email phone])
    = (fst (request s (CreateCustomer.mutate name email phone)), Returns r) /\
    BulkCreateCustomers.created_customers r
    = created_by (snd (request s (CreateCustomer.mutate name email phone))) /\
    length (BulkCreateCustomers.created_customers r)
    + length (BulkCreateCustomers.errors r) = 1.
Proof.
  destruct (mutate_spec s [as_row name email phone]) as (c' & cs & es & Bt & E).
  rewrite E. clear E.
  inversion Bt as [| ? ? ? ? c1 customer ? cs' es' O Rest
                   | ? ? ? ? c1 why ? cs' es' O Rest]; subst;
    inversion Rest; subst; inversion O; subst; simpl in *; try discriminate.
  - rewrite create_customer_saved by assumption.
    eexists. split; [reflexivity |]. now split.
  - rewrite create_customer_taken by assumption.
    eexists. split; [now rewrite with_customers_nil |]. now split.
  - rewrite create_customer_rejected by assumption.
    eexists. split; [now rewrite with_customers_nil |]. now split.
  - rewrite (create_customer_refused B s name email phone fault) by assumption.
    exists {| BulkCreateCustomers.created_customers := [];
              BulkCreateCustomers.errors :=
                ["Row " +++ string_of_nat 1 +++ ": " +++ str fault] |}.
    split; [| split; reflexivity].
    destruct fault; simpl; [reflexivity | now rewrite with_customers_nil].
Qed.

(** X8.  A batch whose rows all pass the checks is created whole: if the
    emails of the rows differ from each other and from the stored ones, every
    phone passes the phone check and the store accepts every write, then the
    call reports no error, stores the customers it reports, and these carry
    the names, emails and phones of the rows, in the order of the rows. *)
Theorem bulk_all_rows_created (B : Backend) (s : Store)
    (customers : list CustomerInput.t) :
  (forall st row, customer_save_fault st row = None) ->
  (forall data, In data customers ->
     phone_rejected (CustomerInput.phone data) = false) ->
  (forall data, In data customers ->
     email_exists (CustomerInput.email data) s = false) ->
  NoDup (map CustomerInput.email customers) ->
  exists created,
    request s (BulkCreateCustomers.mutate customers)
    = (with_customers s created,
       Returns {| BulkCreateCustomers.created_customers := created;
                  BulkCreateCustomers.errors := [] |}) /\
    map Customer.name created = map CustomerInput.name customers /\
    map Customer.email created = map CustomerInput.email customers /\
    map Customer.phone created = map CustomerInput.phone customers.
Proof.
  intros NoFault Phones Fresh Distinct.
  destruct (mutate_spec s customers) as (c' & created & errors & Bt & E).
  destruct (batch_all_created _ _ _ _ _ _ NoFault Bt eq_refl Phones Fresh Distinct)
    as (R & -> & Ns & Es & Ps).
  rewrite R in E. now exists created.
Qed.

Lemma bulk_all_rows_created_witness :
  exists created,
    request store_with_ada
      (@BulkCreateCustomers.mutate reliable [row_grace; row_blank])
    = (with_customers store_with_ada created,
       Returns {| BulkCreateCustomers.created_customers := created;
                  BulkCreateCustomers.errors := [] |}) /\
    map Customer.email created = ["grace@example.com"; "blank@example.com"].
Proof.
  destruct (bulk_all_rows_created reliable store_with_ada [row_grace; row_blank])
    as (created & E & _ & Es & _).
  - reflexivity.
  - intros data [<- | [<- | []]]; reflexivity.
  - intros data [<- | [<- | []]]; reflexivity.
  - simpl. repeat constructor; simpl; intuition discriminate.
  - exists created. split; [exact E | exact Es].
Defined.

(** X9.  Sending a batch again creates nothing: on a store that accepts
    every write, after a [BulkCreateCustomers] call the same batch creates
    no customer, reports one error for each row and leaves the store as the
    first call left it. *)
Theorem bulk_replay_creates_nothing (B : Backend) (s : Store)
    (customers : list CustomerInput.t) :
  (forall st row, customer_save_fault st row = None) ->
  exists s1 r1 r2,
    request s (BulkCreateCustomers.mutate customers) = (s1, Returns r1) /\
    request s1 (BulkCreateCustomers.mutate customers) = (s1, Returns r2) /\
    BulkCreateCustomers.created_customers r2 = [] /\
    length (BulkCreateCustomers.errors r2) = length customers.
Proof.
  intros NoFault.
  destruct (mutate_spec s customers) as (c1 & cs1 & es1 & Bt1 & E1).
  destruct (batch_settled _ _ _ _ _ _ NoFault Bt1 eq_refl) as [R1 Known].
  rewrite R1 in E1. rewrite (batch_db _ _ _ _ _ _ Bt1) in Known. simpl in Known.
  destruct (mutate_spec (with_customers s cs1) customers) as (c2 & cs2 & es2 & Bt2 & E2).
  destruct (batch_nothing_new _ _ _ _ _ _ Bt2 eq_refl Known) as (-> & -> & L).
  simpl in E2. rewrite with_customers_nil in E2.
  do 3 eexists. split; [exact E1 |]. split; [exact E2 |]. now split.
Qed.

Lemma bulk_replay_creates_nothing_witness :
  exists s1 r1 r2,
    request store_with_ada
      (@BulkCreateCustomers.mutate reliable [row_grace; row_countess; row_blank])
    = (s1, Returns r1) /\
    request s1 (@BulkCreateCustomers.mutate reliable [row_grace; row_countess; row_blank])
    = (s1, Returns r2) /\
    BulkCreateCustomers.created_customers r2 = [] /\
    length (BulkCreateCustomers.errors r2) = 3.
Proof.
  apply (bulk_replay_creates_nothing reliable store_with_ada
           [row_grace; row_countess; row_blank]).
  reflexivity.
Defined.

Lemma batch_in_atomic_block (B : Backend) idx c customers c' created errors :
  batch_outcome idx c customers c' created errors ->
  in_atomic_block c' = in_atomic_block c.
Proof.
  induction 1 as [idx c | idx c data rest c1 customer c2 cs es O _ IH
                 | idx c data rest c1 why c2 cs es O _ IH].
  - reflexivity.
  - rewrite IH. now inversion O; subst.
  - rewrite IH. inversion O; subst; try reflexivity. now destruct fault.
Qed.

(** X10.  A database error discards the batch.  Let the rows [pre] have
    been processed, leaving a transaction that still takes queries, and let
    the next row pass both checks and its INSERT raise a database error.
    Then the store after the call is the store before it, the customers
    created from [pre] are reported as created all the same, the row leaves
    the message of the database, and every later row leaves the message of
    the broken transaction, whatever it holds. *)
Theorem bulk_database_error_discards_batch (B : Backend) (s : Store)
    (pre : list CustomerInput.t) (data : CustomerInput.t)
    (post : list CustomerInput.t) (c0 : Connection) (cs0 : list Customer.t)
    (es0 : list string) (msg : string) :
  batch_outcome 0 (begin s) pre c0 cs0 es0 ->
  needs_rollback c0 = false ->
  email_exists (CustomerInput.email data) (db c0) = false ->
  phone_rejected (CustomerInput.phone data) = false ->
  customer_save_fault (db c0)
    (new_customer (CustomerInput.name data) (CustomerInput.email data)
       (CustomerInput.phone data) (db c0)) = Some (DatabaseError msg) ->
  exists later,
    request s (BulkCreateCustomers.mutate (pre ++ data :: post))
    = (s, Returns
            {| BulkCreateCustomers.created_customers := cs0;
               BulkCreateCustomers.errors :=
                 es0 ++ ("Row " +++ string_of_nat (S (length pre)) +++ ": " +++ msg)
                     :: later |}) /\
    length later = length post /\
    Forall (fun e => exists n,
              e = "Row " +++ string_of_nat n +++ ": " +++ broken_transaction) later.
Proof.
  intros B0 R T P F.
  destruct (mutate_spec s (pre ++ data :: post)) as (c' & cs & es & Bt & E).
  apply batch_outcome_app in Bt as (c0' & cs0' & es0' & cs1 & es1 & B0' & B1 & -> & ->).
  destruct (batch_outcome_deterministic _ _ _ _ _ _ B0' _ _ _ B0) as (-> & -> & ->).
  rewrite Nat.add_0_r in B1.
  assert (A : in_atomic_block c0 = true)
    by (now rewrite (batch_in_atomic_block _ _ _ _ _ _ _ B0)).
  inversion B1 as [| ? ? ? ? c1 customer ? cs' es' O Rest
                   | ? ? ? ? c1 why ? cs' es' O Rest]; subst.
  { exfalso. inversion O; subst. congruence. }
  assert (W : c1 = mark_for_rollback c0 /\ why = msg).
  { inversion O; subst; try congruence.
    match goal with F' : _ = Some fault |- _ =>
      rewrite F in F'; injection F' as <- end.
    now split. }
  destruct W as [-> ->].
  destruct (batch_broken _ _ _ _ _ _ Rest) as (-> & -> & L & Broken).
  { simpl. now rewrite A. }
  simpl in E. rewrite A in E. simpl in E. rewrite app_nil_r in E.
  exists es'. now repeat split.
Qed.

Lemma bulk_database_error_discards_batch_witness :
  exists later,
    request empty_store
      (@BulkCreateCustomers.mutate strict_names ([row_ada] ++ row_long :: [row_grace]))
    = (empty_store,
       Returns
         {| BulkCreateCustomers.created_customers := [ada];
            BulkCreateCustomers.errors :=
              [] ++ "Row 2: value too long for type character varying(100)" :: later |}) /\
    length later = 1 /\
    Forall (fun e => exists n,
              e = "Row " +++ string_of_nat n +++ ": " +++ broken_transaction) later.
Proof.
  apply (bulk_database_error_discards_batch strict_names empty_store
           [row_ada] row_long [row_grace]
           (with_db (begin empty_store) (add_customer empty_store ada)) [ada] []).
  - apply (@batch_created strict_names 0 (begin empty_store) row_ada []
             (with_db (begin empty_store) (add_customer empty_store ada)) ada).
    + apply (@row_created strict_names (begin empty_store) row_ada); reflexivity.
    + apply batch_done.
  - reflexivity.
  - reflexivity.
  - reflexivity.
  - reflexivity.
Defined.

(** *** Products and orders *)

Lemma get_product_found (pid : string) (s : Store) (p : Product.t) :
  get_product pid s = Some p ->
  In p (product_table s) /\ python_int pid = Some (Product.pk p).
Proof.
  unfold get_product, product_with_key.
  destruct (python_int pid) as [key|]; [| discriminate].
  intros F. apply find_some in F as [I E].
  split; [exact I | apply Z.eqb_eq in E; now rewrite E].
Qed.

Lemma resolved_once (s : Store) (product_ids : list string) : forall a b,
  Forall2 (fun pid p => get_product pid s = Some p) product_ids a ->
  Forall2 (fun pid p => get_product pid s = Some p) product_ids b ->
  a = b.
Proof.
  induction product_ids as [|pid rest IH]; intros a b Fa Fb;
    inversion Fa; subst; inversion Fb; subst; [reflexivity |].
  f_equal; [congruence | now apply IH].
Qed.

Lemma resolved_keys (s : Store) (product_ids : list string) (found : list Product.t) :
  Forall2 (fun pid p => get_product pid s = Some p) product_ids found ->
  Forall2 (fun pid key => python_int pid = Some key) product_ids
    (map Product.pk found) /\
  Forall (fun p => In p (product_table s)) found.
Proof.
  induction 1 as [|pid p rest found G _ [IHk IHi]]; [now split; constructor |].
  apply get_product_found in G as [I K]. simpl. split; now constructor.
Qed.

(** What a [CreateOrder] call that succeeded went through. *)
Lemma create_order_success (B : Backend) (now : Z) (s : Store) (customer_id : string)
    (product_ids : list string) (order_date : option Z) (s' : Store)
    (r : CreateOrder.t) :
  request s (CreateOrder.mutate now customer_id product_ids order_date)
  = (s', Returns r) ->
  CreateOrder.success r = true ->
  exists customer found total,
    get_customer customer_id s = Some customer /\
    product_ids <> [] /\
    Forall2 (fun pid p => get_product pid s = Some p) product_ids found /\
    (total == sum_prices found)%Q /\
    let date := match order_date with Some d => d | None => now end in
    let placed := new_order customer date total s in
    let o := with_products placed (nodup Z.eq_dec (map Product.pk found)) in
    order_save_fault s placed = None /\
    r = {| CreateOrder.order := Some o; CreateOrder.success := true;
           CreateOrder.message := "Order created successfully." |} /\
    customer_table s' = customer_table s /\
    product_table s' = product_table s /\
    order_table s'
    = map (fun x => if (Order.pk x =? Order.pk placed)%Z then o else x)
          (order_table s ++ [placed]).
Proof.
  unfold request. rewrite create_order_customer. unfold get_customer.
  destruct (python_int customer_id) as [key|]; [| discriminate].
  destruct (customer_with_key key s) as [customer|].
  2:{ intros E F. injection E as <- <-. discriminate F. }
  destruct product_ids as [|pid rest].
  { intros E F. injection E as <- <-. discriminate F. }
  unfold bind.
  destruct (for_pid_spec (pid :: rest) [] 0%Q (autocommit s) eq_refl)
    as [(pre & bad & post & _ & _ & _ & ->) | (looped & -> & S)];
    [discriminate |].
  destruct looped as [failure | [products total_amount]].
  { destruct S as (pre & bad & post & _ & _ & _ & _ & ->).
    intros E F. injection E as <- <-. discriminate F. }
  destruct S as (found & F2 & -> & T).
  unfold save_order, write, set_products, ret. simpl.
  destruct (order_save_fault s (new_order customer _ total_amount s))
    as [[msg|msg]|] eqn:Fault;
    simpl; intros E F; try discriminate E.
  injection E as <- <-.
  exists customer, found, total_amount. split; [reflexivity |].
  split; [discriminate |]. split; [exact F2 |].
  split; [now rewrite Qplus_0_l in T |].
  simpl. now repeat split.
Qed.

Lemma sum_prices_nonnegative (ps : list Product.t) :
  Forall (fun p => (0 < Product.price p)%Q) ps -> (0 <= sum_prices ps)%Q.
Proof.
  induction 1 as [|p ps P _ IH]; simpl; [apply Qle_refl |].
  apply Qle_trans with (0 + 0)%Q; [now rewrite Qplus_0_l; apply Qle_refl |].
  apply Qplus_le_compat; [now apply Qlt_le_weak | exact IH].
Qed.

Lemma sum_prices_positive (ps : list Product.t) :
  Forall (fun p => (0 < Product.price p)%Q) ps -> ps <> [] -> (0 < sum_prices ps)%Q.
Proof.
  intros F N. destruct ps as [|p ps]; [contradiction |].
  inversion F as [|? ? P F']; subst. simpl.
  apply Qlt_le_trans with (Product.price p + 0)%Q; [now rewrite Qplus_0_r |].
  apply Qplus_le_compat; [apply Qle_refl | now apply sum_prices_nonnegative].
Qed.

(** X11.  [CreateProduct] keeps the stored products checked: if every
    stored product has a stock of zero or more and, as its price, what the
    decimal column keeps of a price above zero, so has every stored product
    after the call, whatever the arguments.  The price kept need not be above
    zero itself: of 1/512 a column of two decimal places keeps 0.00. *)
Theorem create_product_keeps_products_checked (B : Backend) (s : Store) (name : string)
    (price : Q) (stock : Z) :
  checked_products s ->
  checked_products (fst (request s (CreateProduct.mutate name price stock))).
Proof.
  intros V. unfold request, CreateProduct.mutate.
  destruct (Qle_bool price 0) eqn:P; [exact V |].
  destruct (stock <? 0)%Z eqn:N; [exact V |].
  unfold bind, save_product, write. simpl.
  destruct (product_save_fault s (new_product name price stock s)) as [[msg|msg]|];
    simpl; try exact V.
  unfold checked_products. simpl. apply Forall_app. split; [exact V |].
  constructor; [| constructor]. simpl. split.
  - exists price. split; [| apply Qeq_refl].
    apply Qnot_le_lt. intros L. apply Qle_bool_iff in L. congruence.
  - now apply Z.ltb_ge.
Qed.

Lemma create_product_keeps_products_checked_witness :
  @checked_products reliable
    (fst (request shop (@CreateProduct.mutate reliable "Nib" (1 # 512)%Q 0%Z))).
Proof.
  apply (create_product_keeps_products_checked reliable shop).
  unfold checked_products. simpl. constructor; [| constructor; [| constructor]].
  - split; [exists (3 # 2)%Q; split; reflexivity | discriminate].
  - split; [exists (5 # 1)%Q; split; reflexivity | discriminate].
Defined.

(** A price above zero that is stored as zero. *)
Example create_product_price_kept_as_zero :
  valid_products shop /\
  exists p,
    In p (product_table
            (fst (request shop (@CreateProduct.mutate reliable "Nib" (1 # 512)%Q 0%Z)))) /\
    (Product.price p == 0)%Q.
Proof.
  split.
  - unfold valid_products. simpl.
    repeat constructor; simpl; solve [reflexivity | discriminate].
  - eexists. split; [right; right; left; reflexivity | reflexivity].
Qed.

(** X12.  What is enough for an order: with a customer id of the store,
    at least one product id, every product id that of a stored product, and
    a store that accepts the order, [CreateOrder] succeeds.  The order of the
    result refers to the customer, is dated [order_date] if one is given and
    [now] otherwise, totals the prices of the products, and is one more
    order in the store. *)
Theorem create_order_succeeds (B : Backend) (now : Z) (s : Store) (customer_id : string)
    (product_ids : list string) (order_date : option Z)
    (customer : Customer.t) (resolved : list Product.t) :
  get_customer customer_id s = Some customer ->
  product_ids <> [] ->
  Forall2 (fun pid p => get_product pid s = Some p) product_ids resolved ->
  (forall o, order_save_fault s o = None) ->
  exists s' o,
    request s (CreateOrder.mutate now customer_id product_ids order_date)
    = (s', Returns {| CreateOrder.order := Some o; CreateOrder.success := true;
                      CreateOrder.message := "Order created successfully." |}) /\
    Order.customer o = Customer.pk customer /\
    Order.order_date o = match order_date with Some d => d | None => now end /\
    (Order.total_amount o == sum_prices resolved)%Q /\
    length (order_table s') = S (length (order_table s)).
Proof.
  intros C N F2 NoFault.
  unfold request. rewrite create_order_customer. unfold get_customer in C.
  destruct (python_int customer_id) as [key|]; [| discriminate].
  rewrite C.
  destruct product_ids as [|pid rest]; [contradiction |].
  unfold bind.
  assert (Resolved : forall pre bad post,
             pid :: rest = pre ++ bad :: post -> get_product bad s <> None).
  { intros pre bad post E. rewrite E in F2.
    apply Forall2_app_inv_l in F2 as (l1 & l2 & _ & F2 & _).
    inversion F2; subst. congruence. }
  destruct (for_pid_spec (pid :: rest) [] 0%Q (autocommit s) eq_refl)
    as [(pre & bad & post & E & _ & Num & _) | (looped & -> & S)].
  { exfalso. apply (Resolved pre bad post E). unfold get_product. now rewrite Num. }
  destruct looped as [failure | [products total_amount]].
  { exfalso. destruct S as (pre & bad & post & E & _ & _ & Bad & _).
    exact (Resolved pre bad post E Bad). }
  destruct S as (found & F2' & -> & T).
  rewrite (resolved_once _ _ _ _ F2' F2) in *.
  unfold save_order, write, set_products, ret. simpl. rewrite NoFault. simpl.
  do 2 eexists. split; [reflexivity |]. simpl.
  repeat split.
  - now rewrite Qplus_0_l in T.
  - rewrite length_map, length_app. simpl. lia.
Qed.

Lemma create_order_succeeds_witness :
  exists s' o,
    request shop (@CreateOrder.mutate reliable 99%Z "1" ["2"; "1"] None)
    = (s', Returns {| CreateOrder.order := Some o; CreateOrder.success := true;
                      CreateOrder.message := "Order created successfully." |}) /\
    Order.customer o = 1%Z /\
    Order.order_date o = 99%Z /\
    (Order.total_amount o == sum_prices [ink; pen])%Q /\
    length (order_table s') = 1.
Proof.
  apply (create_order_succeeds reliable 99%Z shop "1" ["2"; "1"] None ada [ink; pen]).
  - reflexivity.
  - discriminate.
  - repeat constructor.
  - reflexivity.
Defined.

Lemma keys_of_ids (product_ids : list string) (keys : list Z) :
  Forall2 (fun pid key => python_int pid = Some key) product_ids keys ->
  forall key,
    In key keys <-> exists pid, In pid product_ids /\ python_int pid = Some key.
Proof.
  induction 1 as [|pid k rest keys K _ IH]; intros key; simpl.
  - split; [intros [] | intros (pid & [] & _)].
  - rewrite IH. split.
    + intros [<- | (p & I & E)]; [exists pid | exists p]; auto.
    + intros (p & [<- | I] & E); [left; congruence | right; now exists p].
Qed.

(** X13.  The products of an order are the products the ids of the call
    denote, each once: after a [CreateOrder] call that succeeded, the
    relation of the order has no repeated key, holds exactly the keys that
    the product ids denote, and is not empty. *)
Theorem create_order_relation (B : Backend) (now : Z) (s : Store) (customer_id : string)
    (product_ids : list string) (order_date : option Z)
    (s' : Store) (r : CreateOrder.t) :
  request s (CreateOrder.mutate now customer_id product_ids order_date)
  = (s', Returns r) ->
  CreateOrder.success r = true ->
  exists o,
    CreateOrder.order r = Some o /\
    NoDup (Order.products o) /\
    (forall key,
       In key (Order.products o)
       <-> exists pid, In pid product_ids /\ python_int pid = Some key) /\
    Order.products o <> [].
Proof.
  intros E S.
  destruct (create_order_success B now s customer_id product_ids order_date s' r E S)
    as (customer & found & total & _ & N & F2 & _ & _ & -> & _).
  apply resolved_keys in F2 as [K _].
  eexists. split; [reflexivity |]. simpl. split; [apply NoDup_nodup |]. split.
  - intros key. rewrite nodup_In. now apply keys_of_ids.
  - inversion K as [|pid k rest keys]; subst; [contradiction |].
    intros Empty.
    assert (I : In k (nodup Z.eq_dec (k :: keys))) by (apply nodup_In; now left).
    now rewrite Empty in I.
Qed.

Lemma create_order_relation_witness :
  exists o,
    NoDup (Order.products o) /\
    (forall key,
       In key (Order.products o)
       <-> exists pid, In pid ["1"; "2"; "01"] /\ python_int pid = Some key) /\
    Order.products o = [2; 1]%Z.
Proof.
  edestruct (create_order_relation reliable 0%Z shop "1" ["1"; "2"; "01"] None)
    as (o & Ro & D & I & N).
  - reflexivity.
  - reflexivity.
  - exists o. split; [exact D | split; [exact I |]].
    injection Ro as <-. reflexivity.
Defined.

(** X14.  An order costs something: on a store whose products all have a
    price above zero, the total of the order of a [CreateOrder] call that
    succeeded is above zero. *)
Theorem create_order_total_positive (B : Backend) (now : Z) (s : Store)
    (customer_id : string) (product_ids : list string) (order_date : option Z)
    (s' : Store) (r : CreateOrder.t) :
  valid_products s ->
  request s (CreateOrder.mutate now customer_id product_ids order_date)
  = (s', Returns r) ->
  CreateOrder.success r = true ->
  exists o, CreateOrder.order r = Some o /\ (0 < Order.total_amount o)%Q.
Proof.
  intros V E S.
  destruct (create_order_success B now s customer_id product_ids order_date s' r E S)
    as (customer & found & total & _ & N & F2 & T & _ & -> & _).
  eexists. split; [reflexivity |]. simpl. rewrite T.
  apply sum_prices_positive.
  - apply resolved_keys in F2 as [_ I].
    unfold valid_products in V. rewrite Forall_forall in V, I |- *.
    intros p Ip. now apply V, I.
  - intros ->. inversion F2; subst. contradiction.
Qed.

Lemma create_order_total_positive_witness :
  exists o, (0 < Order.total_amount o)%Q /\ (Order.total_amount o == 5 # 1)%Q.
Proof.
  edestruct (create_order_total_positive reliable 0%Z shop "1" ["2"] (Some 7%Z))
    as (o & Ro & P).
  - unfold valid_products. simpl.
    repeat constructor; simpl; solve [reflexivity | discriminate].
  - reflexivity.
  - reflexivity.
  - exists o. split; [exact P |]. injection Ro as <-. reflexivity.
Defined.

(** *** What the mutations leave alone *)

Lemma create_order_tables (B : Backend) (now : Z) (s : Store) (customer_id : string)
    (product_ids : list string) (order_date : option Z) :
  let s' := fst (request s (CreateOrder.mutate now customer_id product_ids order_date)) in
  customer_table s' = customer_table s /\ product_table s' = product_table s.
Proof.
  unfold request. rewrite create_order_customer.
  destruct (python_int customer_id) as [key|]; [| now split].
  destruct (customer_with_key key s) as [customer|]; [| now split].
  destruct product_ids as [|pid rest]; [now split |].
  unfold bind.
  destruct (for_pid_spec (pid :: rest) [] 0%Q (autocommit s) eq_refl)
    as [(pre & bad & post & _ & _ & _ & ->) | (looped & -> & S)]; [now split |].
  destruct looped as [failure | [products total_amount]]; [now split |].
  unfold save_order, write, set_products, ret. simpl.
  now destruct (order_save_fault s (new_order customer _ total_amount s))
    as [[msg|msg]|].
Qed.

(** X15.  Every mutation writes to its own table only, and only at its
    end: [CreateCustomer] and [BulkCreateCustomers] leave the products and
    the orders as they are and keep every stored customer, unchanged and in
    place, before the ones they add; [CreateProduct] does the same for the
    products and leaves customers and orders as they are; [CreateOrder]
    leaves customers and products as they are.  This holds whatever the call
    returns or raises. *)
Theorem mutations_keep_other_tables (B : Backend) (s : Store) :
  (forall name email phone,
     let s' := fst (request s (CreateCustomer.mutate name email phone)) in
     product_table s' = product_table s /\ order_table s' = order_table s /\
     exists added, customer_table s' = customer_table s ++ added)
  /\
  (forall customers,
     let s' := fst (request s (BulkCreateCustomers.mutate customers)) in
     product_table s' = product_table s /\ order_table s' = order_table s /\
     exists added, customer_table s' = customer_table s ++ added)
  /\
  (forall name price stock,
     let s' := fst (request s (CreateProduct.mutate name price stock)) in
     customer_table s' = customer_table s /\ order_table s' = order_table s /\
     exists added, product_table s' = product_table s ++ added)
  /\
  (forall now customer_id product_ids order_date,
     let s' :=
       fst (request s (CreateOrder.mutate now customer_id product_ids order_date)) in
     customer_table s' = customer_table s /\ product_table s' = product_table s).
Proof.
  split; [| split; [| split]].
  - intros name email phone.
    destruct (create_customer_store B s name email phone) as [[E _] | (_ & _ & E)];
      rewrite E; simpl; repeat split.
    + exists []. now rewrite app_nil_r.
    + now eexists.
  - intros customers.
    destruct (mutate_spec s customers) as (c' & created & errors & _ & E).
    rewrite E. simpl. destruct (needs_rollback c'); simpl; repeat split.
    + exists []. now rewrite app_nil_r.
    + now eexists.
  - intros name price stock. unfold request, CreateProduct.mutate.
    assert (Same : exists added : list Product.t,
               product_table s = product_table s ++ added)
      by (exists []; now rewrite app_nil_r).
    destruct (Qle_bool price 0); [now repeat split |].
    destruct (stock <? 0)%Z; [now repeat split |].
    unfold bind, save_product, write. simpl.
    destruct (product_save_fault s (new_product name price stock s)) as [[msg|msg]|];
      simpl; repeat split; try exact Same.
    now eexists.
  - intros now customer_id product_ids order_date. apply create_order_tables.
Qed.

(** *** A batch and its rows one at a time *)

Lemma batch_one_by_one (B : Backend) idx c customers c' created errors :
  (forall s row msg, customer_save_fault s row <> Some (DatabaseError msg)) ->
  batch_outcome idx c customers c' created errors ->
  needs_rollback c = false ->
  one_by_one (db c) customers = (db c', created).
Proof.
  intros NoDb.
  induction 1 as [idx c | idx c data rest c1 customer c2 cs es O _ IH
                 | idx c data rest c1 why c2 cs es O _ IH]; intros R.
  - reflexivity.
  - inversion O; subst. simpl.
    rewrite create_customer_saved by assumption.
    simpl in IH. now rewrite (IH R).
  - assert (E : needs_rollback c1 = false /\ db c1 = db c /\
                exists r,
                  request (db c)
                    (CreateCustomer.mutate (CustomerInput.name data)
                       (CustomerInput.email data) (CustomerInput.phone data))
                  = (db c, r) /\ created_by r = []).
    { inversion O; subst; try congruence.
      - repeat split; try assumption. eexists.
        split; [now apply create_customer_taken | reflexivity].
      - repeat split; try assumption. eexists.
        split; [now apply create_customer_rejected | reflexivity].
      - destruct fault as [msg | msg].
        { exfalso. eapply NoDb. eassumption. }
        repeat split; try assumption. eexists.
        split; [now apply (create_customer_refused B (db c) _ _ _ (OtherError msg))
               | reflexivity]. }
    destruct E as (R1 & D & r & E & C). simpl. rewrite E, C.
    rewrite <- D, (IH R1). reflexivity.
Qed.

(** X16.  A batch stores what its rows would store one at a time: as long
    as the database raises no error, the store after [BulkCreateCustomers] is
    the store after one [CreateCustomer] call for each row, in order, and the
    customers the batch reports are the customers those calls return. *)
Theorem bulk_is_one_by_one (B : Backend) (s : Store)
    (customers : list CustomerInput.t) :
  (forall st row msg, customer_save_fault st row <> Some (DatabaseError msg)) ->
  exists r,
    request s (BulkCreateCustomers.mutate customers)
    = (fst (one_by_one s customers), Returns r) /\
    BulkCreateCustomers.created_customers r = snd (one_by_one s customers).
Proof.
  intros NoDb.
  destruct (mutate_spec s customers) as (c' & created & errors & Bt & E).
  rewrite (batch_not_marked _ _ _ _ _ _ NoDb Bt eq_refl) in E.
  pose proof (batch_one_by_one B _ _ _ _ _ _ NoDb Bt eq_refl) as O.
  simpl in O. rewrite O. simpl.
  rewrite (batch_db _ _ _ _ _ _ Bt). simpl.
  eexists. split; [exact E | reflexivity].
Qed.

Lemma bulk_is_one_by_one_witness :
  exists r,
    request store_with_ada
      (@BulkCreateCustomers.mutate (vetoing "Blank")
         [row_grace; row_countess; row_blank; row_grace])
    = (fst (@one_by_one (vetoing "Blank") store_with_ada
              [row_grace; row_countess; row_blank; row_grace]), Returns r) /\
    BulkCreateCustomers.created_customers r
    = snd (@one_by_one (vetoing "Blank") store_with_ada
             [row_grace; row_countess; row_blank; row_grace]).
Proof.
  apply (bulk_is_one_by_one (vetoing "Blank") store_with_ada).
  intros st row msg. simpl.
  destruct (Customer.name row =? "Blank")%string; discriminate.
Defined.

(** *** References *)

Lemma find_app_found {A} (f : A -> bool) (l added : list A) :
  find f l <> None -> find f (l ++ added) <> None.
Proof.
  induction l as [|x l IH]; simpl; [contradiction |].
  destruct (f x); [discriminate | exact IH].
Qed.

(** An order that resolves keeps resolving when customers and products are
    added after the stored ones. *)
Lemma order_resolves_grow (s s' : Store) (o : Order.t) :
  (exists added, customer_table s' = customer_table s ++ added) ->
  (exists added, product_table s' = product_table s ++ added) ->
  order_resolves s o -> order_resolves s' o.
Proof.
  intros [cs Ec] [ps Ep] [C P]. split.
  - unfold customer_with_key. rewrite Ec. now apply find_app_found.
  - rewrite Forall_forall in P |- *. intros pk I.
    unfold product_with_key. rewrite Ep. apply find_app_found. now apply P.
Qed.

Lemma references_resolve_grow (s s' : Store) :
  (exists added, customer_table s' = customer_table s ++ added) ->
  (exists added, product_table s' = product_table s ++ added) ->
  order_table s' = order_table s ->
  references_resolve s -> references_resolve s'.
Proof.
  unfold references_resolve. intros C P -> R.
  rewrite Forall_forall in R |- *. intros o I.
  apply (order_resolves_grow s); auto.
Qed.

Lemma same_table {A} (l : list A) : exists added, l = l ++ added.
Proof. exists []. now rewrite app_nil_r. Qed.

(** A [CreateOrder] call that does not return success stores nothing. *)
Lemma create_order_nothing_stored (B : Backend) (now : Z) (s : Store)
    (customer_id : string) (product_ids : list string) (order_date : option Z) :
  match request s (CreateOrder.mutate now customer_id product_ids order_date) with
  | (s', Returns r) => CreateOrder.success r = true \/ s' = s
  | (s', Raises _) => s' = s
  end.
Proof.
  unfold request. rewrite create_order_customer.
  destruct (python_int customer_id) as [key|]; [| reflexivity].
  destruct (customer_with_key key s) as [customer|]; [| now right].
  destruct product_ids as [|pid rest]; [now right |].
  unfold bind.
  destruct (for_pid_spec (pid :: rest) [] 0%Q (autocommit s) eq_refl)
    as [(pre & bad & post & _ & _ & _ & ->) | (looped & -> & S)]; [reflexivity |].
  destruct looped as [failure | [products total_amount]]; [now right |].
  unfold save_order, write, set_products, ret. simpl.
  destruct (order_save_fault s (new_order customer _ total_amount s))
    as [[msg|msg]|]; simpl; try reflexivity.
  now left.
Qed.

Lemma get_customer_found (customer_id : string) (s : Store) (c : Customer.t) :
  get_customer customer_id s = Some c -> customer_with_key (Customer.pk c) s = Some c.
Proof.
  unfold get_customer. destruct (python_int customer_id) as [key|]; [| discriminate].
  intros F. pose proof F as F'. apply find_some in F' as [_ E].
  apply Z.eqb_eq in E. now rewrite E.
Qed.

Lemma resolved_all (s : Store) (product_ids : list string) (found : list Product.t) :
  Forall2 (fun pid p => get_product pid s = Some p) product_ids found ->
  Forall (fun p => product_with_key (Product.pk p) s = Some p) found.
Proof.
  induction 1 as [|pid p rest found G _ IH]; constructor; [| exact IH].
  unfold get_product in G. destruct (python_int pid) as [key|]; [| discriminate].
  pose proof G as G'. apply find_some in G' as [_ E].
  apply Z.eqb_eq in E. now rewrite E.
Qed.

(** X17.  No mutation leaves an order that points nowhere: if every stored
    order refers to a stored customer and to stored products, then so does
    every stored order after a [CreateCustomer], [BulkCreateCustomers],
    [CreateProduct] or [CreateOrder] call, the new order included, whatever
    the call returns or raises. *)
Theorem mutations_keep_references (B : Backend) (s : Store) :
  references_resolve s ->
  (forall name email phone,
     references_resolve (fst (request s (CreateCustomer.mutate name email phone))))
  /\
  (forall customers,
     references_resolve (fst (request s (BulkCreateCustomers.mutate customers))))
  /\
  (forall name price stock,
     references_resolve (fst (request s (CreateProduct.mutate name price stock))))
  /\
  (forall now customer_id product_ids order_date,
     references_resolve
       (fst (request s (CreateOrder.mutate now customer_id product_ids order_date)))).
Proof.
  intros R. split; [| split; [| split]].
  - intros name email phone.
    destruct (create_customer_store B s name email phone) as [[E _] | (_ & _ & E)];
      rewrite E; simpl; [exact R |].
    apply (references_resolve_grow s); simpl;
      [now eexists | apply same_table | reflexivity | exact R].
  - intros customers.
    destruct (mutate_spec s customers) as (c' & created & errors & _ & E).
    rewrite E. simpl. destruct (needs_rollback c'); [exact R |].
    apply (references_resolve_grow s); simpl;
      [now eexists | apply same_table | reflexivity | exact R].
  - intros name price stock. unfold request, CreateProduct.mutate.
    destruct (Qle_bool price 0); [exact R |].
    destruct (stock <? 0)%Z; [exact R |].
    unfold bind, save_product, write. simpl.
    destruct (product_save_fault s (new_product name price stock s)) as [[msg|msg]|];
      simpl; try exact R.
    apply (references_resolve_grow s); simpl;
      [apply same_table | now eexists | reflexivity | exact R].
  - intros now customer_id product_ids order_date.
    pose proof (create_order_nothing_stored B now s customer_id product_ids order_date)
      as Nothing.
    destruct (request s (CreateOrder.mutate now customer_id product_ids order_date))
      as [s' [r | e]] eqn:E; simpl; [| now subst].
    destruct Nothing as [S | ->]; [| exact R].
    destruct (create_order_success B now s customer_id product_ids order_date s' r E S)
      as (customer & found & total & C & _ & F2 & _ & _ & _ & Ec & Ep & Eo).
    assert (Grow : forall o, order_resolves s o -> order_resolves s' o).
    { intros o. apply order_resolves_grow.
      - rewrite Ec. apply same_table.
      - rewrite Ep. apply same_table. }
    unfold references_resolve. rewrite Eo, Forall_forall.
    intros o I. apply in_map_iff in I as (x & <- & I).
    destruct (Order.pk x =? _)%Z eqn:K.
    + apply Grow. split; simpl.
      * rewrite (get_customer_found _ _ _ C). discriminate.
      * rewrite Forall_forall.
        intros pk Ipk. apply nodup_In, in_map_iff in Ipk as (p & <- & Ip).
        pose proof (resolved_all _ _ _ F2) as All.
        rewrite Forall_forall in All. rewrite (All p Ip). discriminate.
    + apply Grow. apply in_app_or in I as [I | [<- | []]].
      * unfold references_resolve in R. rewrite Forall_forall in R. now apply R.
      * simpl in K. now rewrite Z.eqb_refl in K.
Qed.

Lemma mutations_keep_references_witness :
  references_resolve
    (fst (request shop_with_order (@CreateOrder.mutate reliable 0%Z "1" ["2"] None))) /\
  references_resolve
    (fst (request shop_with_order
            (@BulkCreateCustomers.mutate reliable [row_grace; row_countess]))).
Proof.
  assert (R : references_resolve shop_with_order).
  { unfold references_resolve, order_resolves. simpl.
    repeat constructor; simpl; discriminate. }
  split.
  - apply (mutations_keep_references reliable shop_with_order R).
  - apply (mutations_keep_references reliable shop_with_order R).
Defined.

(** ** A database error inside the atomic block *)

Section Atomicity.

Context {B : Backend}.

(** Rows on a connection whose transaction is marked leave the messages of
    the broken transaction, row by row. *)
Lemma batch_broken_rows idx c customers c' created errors :
  batch_outcome idx c customers c' created errors ->
  needs_rollback c = true ->
  errors = broken_rows idx customers.
Proof.
  induction 1 as [idx c | idx c data rest c1 customer c2 cs es O Bt IH
                 | idx c data rest c1 why c2 cs es O Bt IH]; intros R.
  - reflexivity.
  - exfalso. inversion O; subst; congruence.
  - assert (E : c1 = c /\ why = broken_transaction)
      by (inversion O; subst; try congruence; now split).
    destruct E as [-> ->]. simpl. now rewrite (IH R).
Qed.

(** A row leaves the connection inside the block it met it in. *)
Lemma row_in_atomic_block c data c1 o :
  row_outcome c data c1 o -> in_atomic_block c1 = in_atomic_block c.
Proof. intros O. inversion O; subst; try reflexivity. now destruct fault. Qed.

(** The transaction of a batch ends marked exactly when an INSERT of the
    batch raised a [DatabaseError]. *)
Lemma batch_marked_iff idx c customers c' created errors :
  batch_outcome idx c customers c' created errors ->
  in_atomic_block c = true ->
  needs_rollback c = false ->
  needs_rollback c' = true <-> database_error_in c customers.
Proof.
  induction 1 as [idx c | idx c data rest c1 customer c2 cs es O Bt IH
                 | idx c data rest c1 why c2 cs es O Bt IH]; intros A R.
  - split; [congruence | intros D; inversion D].
  - assert (R1 : needs_rollback c1 = false) by (inversion O; subst; exact R).
    assert (A1 : in_atomic_block c1 = true)
      by (now rewrite (row_in_atomic_block _ _ _ _ O)).
    rewrite (IH A1 R1). split.
    + intros D. now apply error_later with c1 (inl customer).
    + intros D. inversion D as [? ? ? msg _ _ _ F | ? ? ? c1' o O' D']; subst.
      * exfalso. inversion O; subst. congruence.
      * now destruct (row_outcome_deterministic _ _ _ _ _ _ O O') as [-> _].
  - assert (A1 : in_atomic_block c1 = true)
      by (now rewrite (row_in_atomic_block _ _ _ _ O)).
    destruct (needs_rollback c1) eqn:R1.
    + destruct (batch_broken _ _ _ _ _ _ Bt R1) as (-> & _). split; [| now intros _].
      intros _. inversion O; subst; try congruence.
      destruct fault as [msg | msg]; [| congruence].
      now apply error_here with msg.
    + rewrite (IH A1 eq_refl). split.
      * intros D. now apply error_later with c1 (inr why).
      * intros D. inversion D as [? ? ? msg _ T P F | ? ? ? c1' o O' D']; subst.
        -- exfalso. inversion O; subst; try congruence.
           match goal with F' : _ = Some fault |- _ =>
             rewrite F in F'; injection F' as <- end.
           simpl in R1. rewrite A in R1. discriminate R1.
        -- now destruct (row_outcome_deterministic _ _ _ _ _ _ O O') as [-> _].
Qed.

End Atomicity.

(** C1.  A row whose INSERT raises a database error does abort the rows
    after it.  Let the rows [pre] have been processed, leaving a transaction
    that still takes queries, and let the next row pass both checks and its
    INSERT raise a database error.  Then the row leaves its message, no row
    after it is looked at: each leaves the message of the broken
    transaction, whether it would pass the checks or not, and none is
    created; and the customers created from [pre] are returned as created
    while the store is left as it was before the call. *)
Theorem bulk_database_error_fails_later_rows (B : Backend) (s : Store)
    (pre : list CustomerInput.t) (data : CustomerInput.t)
    (post : list CustomerInput.t) (c0 : Connection) (cs0 : list Customer.t)
    (es0 : list string) (msg : string) :
  batch_outcome 0 (begin s) pre c0 cs0 es0 ->
  needs_rollback c0 = false ->
  email_exists (CustomerInput.email data) (db c0) = false ->
  phone_rejected (CustomerInput.phone data) = false ->
  customer_save_fault (db c0)
    (new_customer (CustomerInput.name data) (CustomerInput.email data)
       (CustomerInput.phone data) (db c0)) = Some (DatabaseError msg) ->
  request s (BulkCreateCustomers.mutate (pre ++ data :: post))
  = (s, Returns
          {| BulkCreateCustomers.created_customers := cs0;
             BulkCreateCustomers.errors :=
               es0 ++ ("Row " +++ string_of_nat (S (length pre)) +++ ": " +++ msg)
                   :: broken_rows (S (length pre)) post |}).
Proof.
  intros B0 R T P F.
  destruct (mutate_spec s (pre ++ data :: post)) as (c' & cs & es & Bt & E).
  apply batch_outcome_app in Bt as (c0' & cs0' & es0' & cs1 & es1 & B0' & B1 & -> & ->).
  destruct (batch_outcome_deterministic _ _ _ _ _ _ B0' _ _ _ B0) as (-> & -> & ->).
  rewrite Nat.add_0_r in B1.
  inversion B1 as [| ? ? ? ? c1 customer ? cs' es' O Rest
                   | ? ? ? ? c1 why ? cs' es' O Rest]; subst.
  { exfalso. inversion O; subst. congruence. }
  assert (W : c1 = mark_for_rollback c0 /\ why = msg).
  { inversion O; subst; try congruence.
    match goal with F' : _ = Some fault |- _ =>
      rewrite F in F'; injection F' as <- end.
    now split. }
  destruct W as [-> ->].
  assert (M : needs_rollback (mark_for_rollback c0) = true).
  { unfold mark_for_rollback. simpl.
    now rewrite (batch_in_atomic_block _ _ _ _ _ _ _ B0). }
  pose proof (batch_broken_rows _ _ _ _ _ _ Rest M) as Later.
  destruct (batch_broken _ _ _ _ _ _ Rest M) as (-> & -> & _).
  rewrite M, app_nil_r, Later in E. exact E.
Qed.

Lemma bulk_database_error_fails_later_rows_witness :
  (exists s',
     request empty_store (@BulkCreateCustomers.mutate strict_names [row_ada; row_grace])
     = (s', Returns
              {| BulkCreateCustomers.created_customers :=
                   [ada; {| Customer.pk := 2; Customer.name := "Grace";
                            Customer.email := "grace@example.com";
                            Customer.phone := Some "+12025550123" |}];
                 BulkCreateCustomers.errors := [] |}))
  /\
  request empty_store
    (@BulkCreateCustomers.mutate strict_names ([row_ada] ++ row_long :: [row_grace]))
  = (empty_store,
     Returns
       {| BulkCreateCustomers.created_customers := [ada];
          BulkCreateCustomers.errors :=
            [ "Row 2: value too long for type character varying(100)";
              "Row 3: An error occurred in the current transaction. You can't execute queries until the end of the 'atomic' block." ] |}).
Proof.
  split; [eexists; reflexivity |].
  apply (bulk_database_error_fails_later_rows strict_names empty_store
           [row_ada] row_long [row_grace]
           (with_db (begin empty_store) (add_customer empty_store ada)) [ada] []).
  - apply (@batch_created strict_names 0 (begin empty_store) row_ada []
             (with_db (begin empty_store) (add_customer empty_store ada)) ada).
    + apply (@row_created strict_names (begin empty_store) row_ada); reflexivity.
    + apply batch_done.
  - reflexivity.
  - reflexivity.
  - reflexivity.
  - reflexivity.
Defined.

(** C7.  A batch is committed whole or not at all.  The call returns the
    customers and messages of its rows, taken one after the other, and then:
    if an INSERT of the batch raised a database error, the store is the store
    the call started on, whatever rows were created before the error; if
    none did, the customer table is the one the call started on followed by
    every created customer, in order, and the other tables are as they were.
    Rejected rows (a stored email, a bad phone) and exceptions raised before
    a query is issued never discard the batch: on a database that raises no
    error, no call is rolled back. *)
Theorem bulk_commits_all_or_nothing (B : Backend) (s : Store)
    (customers : list CustomerInput.t) :
  exists c' created errors s',
    batch_outcome 0 (begin s) customers c' created errors /\
    request s (BulkCreateCustomers.mutate customers)
    = (s', Returns {| BulkCreateCustomers.created_customers := created;
                      BulkCreateCustomers.errors := errors |}) /\
    (database_error_in (begin s) customers -> s' = s) /\
    (~ database_error_in (begin s) customers ->
     customer_table s' = customer_table s ++ created /\
     product_table s' = product_table s /\
     order_table s' = order_table s) /\
    ((forall st row msg, customer_save_fault st row <> Some (DatabaseError msg)) ->
     ~ database_error_in (begin s) customers).
Proof.
  destruct (mutate_spec s customers) as (c' & created & errors & Bt & E).
  pose proof (batch_marked_iff _ _ _ _ _ _ Bt eq_refl eq_refl) as M.
  exists c', created, errors. eexists. split; [exact Bt |]. split; [exact E |].
  split; [| split].
  - intros D. apply M in D. now rewrite D.
  - intros N. destruct (needs_rollback c'); [| now repeat split].
    exfalso. apply N, M. reflexivity.
  - intros NoDb D. apply M in D.
    rewrite (batch_not_marked _ _ _ _ _ _ NoDb Bt eq_refl) in D. discriminate D.
Qed.

Lemma bulk_commits_all_or_nothing_witness :
  (exists c' errors s',
     @batch_outcome strict_names 0 (begin empty_store)
       [row_ada; row_long; row_grace] c' [ada] errors /\
     request empty_store
       (@BulkCreateCustomers.mutate strict_names [row_ada; row_long; row_grace])
     = (s', Returns {| BulkCreateCustomers.created_customers := [ada];
                       BulkCreateCustomers.errors := errors |}) /\
     s' = empty_store)
  /\
  (exists c' created errors s',
     @batch_outcome (vetoing "Blank") 0 (begin store_with_ada)
       [row_grace; row_countess; row_blank] c' created errors /\
     request store_with_ada
       (@BulkCreateCustomers.mutate (vetoing "Blank")
          [row_grace; row_countess; row_blank])
     = (s', Returns {| BulkCreateCustomers.created_customers := created;
                       BulkCreateCustomers.errors := errors |}) /\
     length created = 1 /\ length errors = 2 /\
     customer_table s' = [ada] ++ created).
Proof.
  split.
  - destruct (bulk_commits_all_or_nothing strict_names empty_store
                [row_ada; row_long; row_grace])
      as (c' & created & errors & s' & Bt & E & Discarded & _).
    assert (C : created = [ada])
      by (vm_compute in E; injection E as _ <- _; reflexivity).
    rewrite C in Bt, E.
    exists c', errors, s'. split; [exact Bt |]. split; [exact E |].
    apply Discarded.
    apply (@error_later strict_names (begin empty_store) row_ada [row_long; row_grace]
             (with_db (begin empty_store) (add_customer empty_store ada)) (inl ada)).
    + apply (@row_created strict_names (begin empty_store) row_ada); reflexivity.
    + apply (@error_here strict_names _ row_long [row_grace]
               "value too long for type character varying(100)"); reflexivity.
  - destruct (bulk_commits_all_or_nothing (vetoing "Blank") store_with_ada
                [row_grace; row_countess; row_blank])
      as (c' & created & errors & s' & Bt & E & _ & _ & NoError).
    destruct (bulk_commits_all_or_nothing (vetoing "Blank") store_with_ada
                [row_grace; row_countess; row_blank])
      as (c2 & created2 & errors2 & s2 & _ & E2 & _ & Committed & _).
    rewrite E in E2. injection E2 as <- <- <-.
    exists c', created, errors, s'. split; [exact Bt |]. split; [exact E |].
    assert (L : length created = 1 /\ length errors = 2)
      by (vm_compute in E; injection E as _ <- <-; now split).
    destruct L as [Lc Le]. split; [exact Lc |]. split; [exact Le |].
    apply Committed. apply NoError.
    intros st row msg. simpl.
    destruct (Customer.name row =? "Blank")%string; discriminate.
Defined.

(** X19.  Three rows, the second a duplicate: when the first and the third
    row pass the checks with emails new to the store and distinct, the store
    accepts them, and the email of the second row is stored already or is
    that of the first row, the call returns the customers of rows 1 and 3
    and the one message "Row 2: Email '<email>' already exists.", and the
    customer table is the one before the call followed by those two
    customers. *)
Theorem bulk_three_rows_second_duplicate (B : Backend) (s : Store)
    (r1 r2 r3 : CustomerInput.t) :
  email_exists (CustomerInput.email r1) s = false ->
  phone_rejected (CustomerInput.phone r1) = false ->
  email_exists (CustomerInput.email r2) s = true
  \/ CustomerInput.email r2 = CustomerInput.email r1 ->
  email_exists (CustomerInput.email r3) s = false ->
  CustomerInput.email r3 <> CustomerInput.email r1 ->
  phone_rejected (CustomerInput.phone r3) = false ->
  (forall st row, customer_save_fault st row = None) ->
  exists s' c1 c3,
    request s (BulkCreateCustomers.mutate [r1; r2; r3])
    = (s', Returns
             {| BulkCreateCustomers.created_customers := [c1; c3];
                BulkCreateCustomers.errors :=
                  ["Row 2: Email '" +++ CustomerInput.email r2
                   +++ "' already exists."] |}) /\
    customer_table s' = customer_table s ++ [c1; c3] /\
    product_table s' = product_table s /\
    order_table s' = order_table s /\
    outcome_of 1 r1 (inl c1) /\ outcome_of 3 r3 (inl c3).
Proof.
  intros T1 P1 D2 T3 N3 P3 NoFault.
  do 3 eexists. split.
  - apply three_rows; auto.
  - simpl. rewrite <- app_assoc. simpl. now repeat split.
Qed.

Lemma bulk_three_rows_second_duplicate_witness :
  exists s' c1 c3,
    request empty_store
      (@BulkCreateCustomers.mutate reliable [row_ada; row_countess; row_grace])
    = (s', Returns
             {| BulkCreateCustomers.created_customers := [c1; c3];
                BulkCreateCustomers.errors :=
                  ["Row 2: Email 'ada@example.com' already exists."] |}) /\
    customer_table s' = [c1; c3] /\
    Customer.email c1 = "ada@example.com" /\ Customer.email c3 = "grace@example.com".
Proof.
  destruct (bulk_three_rows_second_duplicate reliable empty_store
              row_ada row_countess row_grace)
    as (s' & c1 & c3 & E & Tc & _ & _ & (_ & E1 & _) & (_ & E3 & _));
    try reflexivity.
  - now right.
  - discriminate.
  - exists s', c1, c3. now repeat split.
Defined.
